(** * DashboardAgente: text normalisation, keyword classification,
      dataset pipeline, metrics and filters

    A shallow embedding of [utils.py] and [data_loader.py] (and of the call
    sites of [app.py] that decide which dataset reaches which function),
    followed by the properties of the specification that were checked
    against it.

    Conventions.
    - A Python [str] is a list of Unicode code points ([list N]); [len] is
      [length], [in] on strings is substring containment.
    - A cell of a text column read by [pandas.read_csv] is either a string
      or the missing marker NaN.
    - The frames of the model are the uploads whose column
      [conversation_name] is text with a name in every row and whose
      column [turn_position] holds integers.  An upload with a missing
      name, or with names that [read_csv] types as numbers, is outside
      the model: there [groupby] drops the rows without a name and orders
      numeric names by value.
    - [score = matches / len(keywords)] is a float quotient of two small
      naturals; it is kept as the exact rational [matches # len].  For the
      taxonomy of this program every denominator is at most 9, so two such
      quotients compare as floats exactly as they compare as rationals.
    - The Unicode database used by [str.lower], [str.title], [str.strip]
      and the [re] classes \w and \s is not part of the repository; it is
      the interface [Unicode] below, with an instance that is exact on
      U+0000..U+00FF for concrete evaluation. *)

From Stdlib Require Import List Bool Arith ZArith NArith QArith Lia.
From Stdlib Require Import Permutation Sorted.
From Stdlib Require Import Ascii String.
Import ListNotations.

Set Implicit Arguments.

(* ================================================================== *)
(** * Strings as sequences of code points *)
(* ================================================================== *)

Definition char := N.
Definition str := list char.

Definition SPACE : char := 32%N.
Definition UNDERSCORE : char := 95%N.

(** An ASCII literal as a [str]. *)
Fixpoint lit (s : string) : str :=
  match s with
  | EmptyString => []
  | String a t => N_of_ascii a :: lit t
  end.

Definition char_eqb (a b : char) : bool := N.eqb a b.

Fixpoint str_eqb (a b : str) : bool :=
  match a, b with
  | [], [] => true
  | x :: a', y :: b' => char_eqb x y && str_eqb a' b'
  | _, _ => false
  end.

(** [prefix p s]: [s.startswith(p)]. *)
Fixpoint prefixb (p s : str) : bool :=
  match p, s with
  | [], _ => true
  | _ :: _, [] => false
  | x :: p', y :: s' => char_eqb x y && prefixb p' s'
  end.

(** [needle in hay] for Python strings. *)
Fixpoint contains (needle hay : str) : bool :=
  prefixb needle hay ||
  match hay with
  | [] => false
  | _ :: hay' => contains needle hay'
  end.

(** [x in xs] for a list or set of strings. *)
Definition str_in (x : str) (xs : list str) : bool :=
  existsb (str_eqb x) xs.

(* ================================================================== *)
(** * The Unicode database *)
(* ================================================================== *)

(** What the program asks of the interpreter's Unicode tables:
    [str.lower], [str.title], the alphanumeric test behind \w and the
    whitespace test shared by [str.strip] and \s. *)
Class Unicode := {
  str_lower : str -> str;
  str_title : str -> str;
  is_alnum : char -> bool;
  is_space : char -> bool
}.

(** The facts about the tables on which idempotence of the normaliser
    rests: a lowered string consists of characters that lowering leaves
    alone, U+0020 is one of them, and it is whitespace. *)
Class UnicodeLowerStable (U : Unicode) := {
  lower_stable : char -> bool;
  lower_stable_out : forall s, Forall (fun c => lower_stable c = true) (str_lower s);
  lower_stable_fix : forall s, Forall (fun c => lower_stable c = true) s -> str_lower s = s;
  lower_stable_space : lower_stable SPACE = true;
  space_is_space : is_space SPACE = true
}.

Module Latin1.

(** Tables for U+0000..U+00FF; code points above are left alone. *)

Definition in_range (lo hi c : N) : bool := (lo <=? c)%N && (c <=? hi)%N.

Definition isspace (c : char) : bool :=
  in_range 9 13 c || in_range 28 32 c || N.eqb c 133 || N.eqb c 160
  || N.eqb c 5760 || in_range 8192 8202 c || N.eqb c 8232 || N.eqb c 8233
  || N.eqb c 8239 || N.eqb c 8287 || N.eqb c 12288.

Definition isupper (c : char) : bool :=
  in_range 65 90 c || in_range 192 214 c || in_range 216 222 c.

Definition islower (c : char) : bool :=
  in_range 97 122 c || N.eqb c 170 || N.eqb c 181 || N.eqb c 186
  || in_range 223 246 c || in_range 248 255 c.

Definition iscased (c : char) : bool := isupper c || islower c.

Definition isalnum (c : char) : bool :=
  in_range 48 57 c || iscased c
  || N.eqb c 178 || N.eqb c 179 || N.eqb c 185 || in_range 188 190 c.

Definition tolower (c : char) : char :=
  if isupper c then (c + 32)%N else c.

(** Full title-case mapping of one character. *)
Definition totitle (c : char) : str :=
  if in_range 97 122 c || in_range 224 246 c || in_range 248 254 c
  then [(c - 32)%N]
  else if N.eqb c 181 then [924%N]
  else if N.eqb c 255 then [376%N]
  else if N.eqb c 223 then [83%N; 115%N]
  else [c].

Definition lower (s : str) : str := map tolower s.

(** [str.title]: a character that follows a cased character is lowered,
    any other character is title-cased. *)
Fixpoint title_from (previous_is_cased : bool) (s : str) : str :=
  match s with
  | [] => []
  | c :: t =>
      (if previous_is_cased then [tolower c] else totitle c)
        ++ title_from (iscased c) t
  end.

Definition title (s : str) : str := title_from false s.

#[export] Instance tables : Unicode := {
  str_lower := lower;
  str_title := title;
  is_alnum := isalnum;
  is_space := isspace
}.

End Latin1.

(* ================================================================== *)
(** * utils.py: constants *)
(* ================================================================== *)

(** [CATEGORIAS_SUBCATEGORIAS]: a dict of dicts of keyword lists, kept as
    association lists in insertion order. *)
Definition CATEGORIAS_SUBCATEGORIAS : list (str * list (str * list str)) :=
  [ (lit "Gesti" ++ [243%N] ++ lit "n de Pedidos",
      [ (lit "Rastreo y Estatus",
          [lit "pedido"; lit "rastrear"; lit "estatus"; lit "guia";
           lit "donde viene"; lit "llegado"; lit "seguimiento"; lit "envio";
           lit "paquete"]);
        (lit "Modificaci" ++ [243%N] ++ lit "n y Cancelaci" ++ [243%N] ++ lit "n",
          [lit "cambiar"; lit "modificar"; lit "cancelar";
           lit "direcci" ++ [243%N] ++ lit "n"; lit "devolver"; lit "reembolso"]);
        (lit "Problemas con Pedido",
          [lit "incompleto"; lit "da" ++ [241%N] ++ lit "ado"; lit "equivocado";
           lit "problema"; lit "falta"; lit "error"; lit "mal estado"]) ]);
    (lit "Purificadores - Info General",
      [ (lit "Comparativa de Modelos",
          [lit "diferencia"; lit "comparar"; lit "cual elegir"; lit "modelos";
           lit "tipos"; lit "mejor"; lit "versus"; lit "vs"]);
        (lit "Beneficios y Caracter" ++ [237%N] ++ lit "sticas",
          [lit "beneficios"; lit "ventajas"; lit "por que comprar";
           lit "para que sirve"; lit "ahorro"; lit "salud";
           lit "caracteristicas"; lit "especificaciones"]) ]);
    (lit "Purificador ALX1",
      [ (lit "Funcionalidad ALX1",
          [lit "alx1"; lit "alta demanda"; lit "conecta"; lit "directo";
           lit "presion"; lit "flujo continuo"]);
        (lit "App y Monitoreo",
          [lit "app"; lit "aplicacion"; lit "monitorear"; lit "calidad";
           lit "consumo"; lit "cartuchos"; lit "notificaciones"]);
        (lit "Instalaci" ++ [243%N] ++ lit "n ALX1",
          [lit "instalar alx1"; lit "conexion"; lit "toma de agua";
           lit "bajo tarja"; lit "llave de paso"]) ]);
    (lit "Purificador ALX2",
      [ (lit "Funcionalidad ALX2",
          [lit "alx2"; lit "portatil"; lit "contenedor"; lit "llenar";
           lit "6 litros"; lit "tanque"; lit "deposito"]);
        (lit "Agua Alcalina",
          [lit "alcalina"; lit "ph"; lit "alcalinidad"; lit "minerales";
           lit "ionizada"]);
        (lit "Control de Temperatura",
          [lit "temperatura"; lit "frio"; lit "caliente"; lit "4 grados";
           lit "100 grados"]) ]);
    (lit "Tecnolog" ++ [237%N] ++ lit "a y Filtraci" ++ [243%N] ++ lit "n",
      [ (lit "Osmosis Inversa",
          [lit "osmosis"; lit "inversa"; lit "ro"; lit "membrana"; lit "sales";
           lit "minerales disueltos"]);
        (lit "Cartuchos y Filtros",
          [lit "cartucho"; lit "filtro"; lit "sedimentos"; lit "carbon";
           lit "vida util"; lit "cambio"; lit "repuesto"]);
        (lit "Calidad del Agua",
          [lit "purificada"; lit "segura"; lit "impurezas"; lit "bacterias";
           lit "cloro"; lit "sabor"; lit "olor"]) ]);
    (lit "Mantenimiento y Soporte",
      [ (lit "Cambio de Filtros",
          [lit "cambiar filtro"; lit "reemplazar cartucho"; lit "mantenimiento";
           lit "cuando cambiar"; lit "frecuencia"]);
        (lit "Instalaci" ++ [243%N] ++ lit "n General",
          [lit "instalar"; lit "instalacion"; lit "bajo fregadero";
           lit "conexion"; lit "plomero"; lit "tutorial"]);
        (lit "Garant" ++ [237%N] ++ lit "as y Soporte",
          [lit "garantia"; lit "devolucion"; lit "reparacion"; lit "soporte";
           lit "servicio tecnico"; lit "falla"]) ]);
    (lit "Interacciones Generales",
      [ (lit "Saludos y Cortes" ++ [237%N] ++ lit "a",
          [lit "hola"; lit "buenos dias"; lit "buenas tardes"; lit "gracias";
           lit "adios"; lit "buenas noches"]);
        (lit "Consultas de Cuenta",
          [lit "mi cuenta"; lit "contrase" ++ [241%N] ++ lit "a";
           lit "datos personales"; lit "perfil"; lit "usuario"; lit "registro"]) ]);
    (lit "Sin Clasificar",
      [ (lit "Otros",
          [lit "otros"; lit "miscelaneos"; lit "sin categoria"]) ]) ].

Definition SALUDOS_BASICOS : list str :=
  [lit "hola"; lit "buenos dias"; lit "buenas tardes"; lit "buenas noches";
   lit "gracias"; lit "adios"; lit "si"; lit "no"; lit "ok"; lit "aja";
   lit "bien"; lit "perfecto"; lit "excelente"; lit "de acuerdo";
   lit "entendido"; lit "claro"; lit "por favor"; lit "disculpa"].

Definition PALABRAS_RUIDO : list str :=
  [[]; lit "si"; lit "no"; lit "ok"; lit "a"; lit "e"; lit "o"; lit "de";
   lit "la"; lit "el"; lit "mi"; lit "que"; lit "es"; lit "un"; lit "una";
   lit "los"; lit "las"; lit "y"; lit "en"; lit "con"; lit "para"; lit "por"].

(** The letters named in the character class of [limpiar_texto]:
    a-acute, e-acute, i-acute, o-acute, u-acute, n-tilde, u-diaeresis. *)
Definition LETRAS_ACENTUADAS : list char :=
  [225; 233; 237; 243; 250; 241; 252]%N.

(* ================================================================== *)
(** * utils.py: limpiar_texto *)
(* ================================================================== *)

(** A cell of a text column: a string, or NaN for a missing value. *)
Inductive cell :=
| NaN
| Text (s : str).

Section Normalizer.
Context {U : Unicode}.

Fixpoint lstrip (s : str) : str :=
  match s with
  | [] => []
  | c :: t => if is_space c then lstrip t else s
  end.

Fixpoint rstrip (s : str) : str :=
  match s with
  | [] => []
  | c :: t =>
      match rstrip t with
      | [] => if is_space c then [] else [c]
      | t' => c :: t'
      end
  end.

(** [str.strip()] *)
Definition strip (s : str) : str := rstrip (lstrip s).

(** A character outside the class [^\w\s...] of the first substitution. *)
Definition kept (c : char) : bool :=
  is_alnum c || char_eqb c UNDERSCORE || is_space c
  || existsb (char_eqb c) LETRAS_ACENTUADAS.

(** [re.sub(r'[^\w\s...]', ' ', texto)] *)
Definition sub_no_permitidos (s : str) : str :=
  map (fun c => if kept c then c else SPACE) s.

(** [re.sub(r'\s+', ' ', texto)]: [in_run] tells that the previous
    character was whitespace, whose run has already produced its space. *)
Fixpoint sub_espacios_from (in_run : bool) (s : str) : str :=
  match s with
  | [] => []
  | c :: t =>
      if is_space c
      then (if in_run then sub_espacios_from true t
            else SPACE :: sub_espacios_from true t)
      else c :: sub_espacios_from false t
  end.

Definition sub_espacios (s : str) : str := sub_espacios_from false s.

Definition limpiar_str (s : str) : str :=
  let texto := strip (str_lower s) in
  let texto := sub_no_permitidos texto in
  strip (sub_espacios texto).

Definition limpiar_texto (texto : cell) : str :=
  match texto with
  | NaN => []
  | Text s => limpiar_str s
  end.

End Normalizer.

(* ================================================================== *)
(** * utils.py: clasificar_consulta *)
(* ================================================================== *)

(** The row handed to the classifier by [DataFrame.apply(axis=1)]: a
    Series indexed by the column names.  [None] in the two optional
    fields means that the frame has no such column. *)
Record Series := {
  s_user_utterances : cell;
  s_intent_name : option cell;
  s_pregunta_limpia : option str
}.

Definition Clasificacion : Type := str * str * Q.

Definition INTENTS_CENTINELA : list str :=
  [lit "UNSPECIFIED"; []; lit "Default Welcome Intent"].

Definition POR_INTENT : str := lit "Por Intent".
Definition SIN_CLASIFICAR : str := lit "Sin Clasificar".
Definition OTROS : str := lit "Otros".

(** [s.replace('_', ' ')] *)
Definition replace_underscore (s : str) : str :=
  map (fun c => if char_eqb c UNDERSCORE then SPACE else c) s.

(** The guard of the first [if]: the column exists, the cell is not NaN,
    and the name is none of the three sentinels. *)
Definition intent_valido (row : Series) : option str :=
  match s_intent_name row with
  | Some (Text i) => if negb (str_in i INTENTS_CENTINELA) then Some i else None
  | _ => None
  end.

(** [sum(1 for keyword in keywords if keyword in pregunta)] *)
Definition contar_matches (keywords : list str) (pregunta : str) : nat :=
  List.length (filter (fun keyword => contains keyword pregunta) keywords).

(** [matches / len(keywords)] *)
Definition cociente (matches len : nat) : Q :=
  Z.of_nat matches # Pos.of_nat len.

Definition Qgtb (a b : Q) : bool :=
  (Qnum b * Zpos (Qden a) <? Qnum a * Zpos (Qden b))%Z.

(** The two loop variables [mejor_match], [mejor_score]. *)
Definition Mejor : Type := option Clasificacion * Q.

(** Body of the inner loop. *)
Definition paso_subcategoria (pregunta categoria : str)
    (st : Mejor) (entrada : str * list str) : Mejor :=
  let '(subcategoria, keywords) := entrada in
  let matches := contar_matches keywords pregunta in
  if (0 <? matches)%nat then
    let score := cociente matches (List.length keywords) in
    if Qgtb score (snd st) then (Some (categoria, subcategoria, score), score)
    else st
  else st.

(** Body of the outer loop. *)
Definition paso_categoria (pregunta : str)
    (st : Mejor) (entrada : str * list (str * list str)) : Mejor :=
  let '(categoria, subcategorias) := entrada in
  fold_left (paso_subcategoria pregunta categoria) subcategorias st.

Definition mejor_coincidencia (pregunta : str) : Mejor :=
  fold_left (paso_categoria pregunta) CATEGORIAS_SUBCATEGORIAS (None, 0%Q).

Section Classifier.
Context {U : Unicode}.

(** [row.get('pregunta_limpia', limpiar_texto(row['user_utterances']))] *)
Definition pregunta_de (row : Series) : str :=
  let por_defecto := limpiar_texto (s_user_utterances row) in
  match s_pregunta_limpia row with
  | Some p => p
  | None => por_defecto
  end.

Definition clasificar_consulta (row : Series) : Clasificacion :=
  match intent_valido row with
  | Some i =>
      let intent := str_title (replace_underscore i) in
      (intent, POR_INTENT, 9 # 10)
  | None =>
      let pregunta := pregunta_de row in
      match fst (mejor_coincidencia pregunta) with
      | Some mejor_match => mejor_match
      | None => (SIN_CLASIFICAR, OTROS, 0%Q)
      end
  end.

End Classifier.

(* ================================================================== *)
(** * Data frames *)
(* ================================================================== *)

(** One row of the uploaded CSV.  The three required columns are always
    there (the loader stops otherwise); the fields of the optional columns
    are read only when [Columns] says that the frame has the column.
    [conversation_name] is the name of the row's conversation, a text: the
    rows of the model all have one. *)
Record RawRow := {
  user_utterances : cell;
  conversation_name : str;
  turn_position : Z;
  intent_name : cell;
  live_agent_handoff : bool;
  end_session_exit : bool
}.

Record Columns := {
  col_intent_name : bool;
  col_live_agent_handoff : bool;
  col_end_session_exit : bool
}.

Record DataFrame (R : Type) := {
  columns : Columns;
  rows : list R
}.

(** A row of [df]: the raw row with the column [pregunta_limpia]. *)
Record CleanRow := {
  raw : RawRow;
  pregunta_limpia : str
}.

(** A row of [df_limpio]: three more columns. *)
Record EnrichedRow := {
  clean : CleanRow;
  categoria : str;
  subcategoria : str;
  confidence : Q
}.

Definition c_conversation (r : CleanRow) : str := conversation_name (raw r).
Definition c_turn (r : CleanRow) : Z := turn_position (raw r).
Definition e_conversation (r : EnrichedRow) : str := c_conversation (clean r).
Definition e_turn (r : EnrichedRow) : Z := c_turn (clean r).

(** [df.empty] for a frame that has columns. *)
Definition empty {R} (df : DataFrame R) : bool :=
  match rows df with [] => true | _ => false end.

(** ** groupby *)

Fixpoint str_ltb (a b : str) : bool :=
  match a, b with
  | _, [] => false
  | [], _ :: _ => true
  | x :: a', y :: b' => (x <? y)%N || (char_eqb x y && str_ltb a' b')
  end.

Section GroupBy.
Variables (R A : Type).
Variable key : R -> str.
Variable init : R -> A.
Variable step : A -> R -> A.

(** Add one row to the group of its key, groups in order of appearance. *)
Fixpoint acumular (r : R) (groups : list (str * A)) : list (str * A) :=
  match groups with
  | [] => [(key r, init r)]
  | (k, a) :: rest =>
      if str_eqb (key r) k then (k, step a r) :: rest
      else (k, a) :: acumular r rest
  end.

Fixpoint insertar_por_clave (g : str * A) (sorted : list (str * A)) :=
  match sorted with
  | [] => [g]
  | h :: rest =>
      if str_ltb (fst h) (fst g) then h :: insertar_por_clave g rest
      else g :: sorted
  end.

Definition ordenar_por_clave (groups : list (str * A)) : list (str * A) :=
  fold_right insertar_por_clave [] groups.

(** [df.groupby(key).agg(...)] on a key column of strings without
    missing values: one aggregate per key, keys sorted. *)
Definition groupby (rs : list R) : list (str * A) :=
  ordenar_por_clave (fold_left (fun groups r => acumular r groups) rs []).

End GroupBy.

(** [df.groupby('conversation_name')['turn_position'].max()] *)
Definition max_turn_position {R} (conv : R -> str) (turn : R -> Z)
    (rs : list R) : list (str * Z) :=
  groupby conv turn (fun m r => Z.max m (turn r)) rs.

(* ================================================================== *)
(** * utils.py: calcular_metricas_conversacion *)
(* ================================================================== *)

Inductive Metrica :=
| Entero (n : Z)
| Numero (q : Q)
| Tabla (t : list (str * (Z * Z))).

(** A Python dict with string keys, in insertion order. *)
Definition Dict : Type := list (string * Metrica).

Fixpoint insertar_Z (x : Z) (sorted : list Z) : list Z :=
  match sorted with
  | [] => [x]
  | h :: rest => if (h <? x)%Z then h :: insertar_Z x rest else x :: sorted
  end.

Definition suma (l : list Z) : Z := fold_left Z.add l 0%Z.

(** [Series.mean()], as an exact quotient. *)
Definition media (l : list Z) : Q :=
  suma l # Pos.of_nat (List.length l).

(** [Series.median()]: the middle value, or the mean of the two middle
    values. *)
Definition mediana (l : list Z) : Q :=
  let s := fold_right insertar_Z [] l in
  let n := List.length s in
  if Nat.even n
  then (nth (n / 2 - 1) s 0%Z + nth (n / 2) s 0%Z)%Z # 2
  else nth (n / 2) s 0%Z # 1.

(** [df.groupby('conversation_name')[flag].max().sum()] *)
Definition contar_conversaciones_con (flag : RawRow -> bool)
    (rs : list CleanRow) : Z :=
  let por_conversacion :=
    groupby c_conversation (fun r => flag (raw r))
            (fun b r => b || flag (raw r)) rs in
  Z.of_nat (List.length (filter (fun g => snd g) por_conversacion)).

Definition no_nulo (c : cell) : Z :=
  match c with NaN => 0%Z | Text _ => 1%Z end.

Definition calcular_metricas_conversacion (df : DataFrame CleanRow) : Dict :=
  if empty df then []
  else
    let conversaciones :=
      groupby c_conversation
        (fun r => (c_turn r, no_nulo (user_utterances (raw r))))
        (fun a r => (Z.max (fst a) (c_turn r),
                     (snd a + no_nulo (user_utterances (raw r)))%Z))
        (rows df) in
    let escalamientos :=
      if col_live_agent_handoff (columns df)
      then contar_conversaciones_con live_agent_handoff (rows df) else 0%Z in
    let finalizaciones :=
      if col_end_session_exit (columns df)
      then contar_conversaciones_con end_session_exit (rows df) else 0%Z in
    let max_turnos := map (fun g => fst (snd g)) conversaciones in
    let total_conversaciones := Z.of_nat (List.length conversaciones) in
    [ ("total_conversaciones"%string, Entero total_conversaciones);
      ("total_interacciones"%string, Entero (Z.of_nat (List.length (rows df))));
      ("turnos_promedio"%string, Numero (media max_turnos));
      ("turnos_mediana"%string, Numero (mediana max_turnos));
      ("escalamientos"%string, Entero escalamientos);
      ("finalizaciones"%string, Entero finalizaciones);
      ("conversaciones_largas"%string,
        Entero (Z.of_nat (List.length (filter (fun m => (10 <? m)%Z) max_turnos))));
      ("conversaciones_df"%string, Tabla conversaciones) ].

(* ================================================================== *)
(** * data_loader.py *)
(* ================================================================== *)

Inductive Exception :=
| AttributeError.

Inductive Outcome (A : Type) :=
| Returns (a : A)
| Raises (e : Exception).
Arguments Returns {A} a.
Arguments Raises {A} e.

Definition TODAS : str := lit "Todas".

(** The mask of the noise filter:
    [~df['pregunta_limpia'].isin(PALABRAS_RUIDO) & (df['pregunta_limpia'].str.len() > 2)] *)
Definition no_es_ruido (r : CleanRow) : bool :=
  negb (str_in (pregunta_limpia r) PALABRAS_RUIDO)
  && (2 <? List.length (pregunta_limpia r))%nat.

(** The Series that [apply(axis=1)] passes for a row of [df_limpio]. *)
Definition fila (cols : Columns) (r : CleanRow) : Series :=
  {| s_user_utterances := user_utterances (raw r);
     s_intent_name :=
       if col_intent_name cols then Some (intent_name (raw r)) else None;
     s_pregunta_limpia := Some (pregunta_limpia r) |}.

Section Loader.
Context {U : Unicode}.

Definition clasificar_fila (cols : Columns) (r : CleanRow) : EnrichedRow :=
  let '(cat, sub, conf) := clasificar_consulta (fila cols r) in
  {| clean := r; categoria := cat; subcategoria := sub; confidence := conf |}.

(** [cargar_y_procesar_datos], from the parsed and schema-checked frame
    on.  When no row passes the noise filter, [df_limpio.apply] is
    applied to a frame without rows and gives back a frame, not a Series;
    the call of [tolist] on it raises. *)
Definition cargar_y_procesar_datos (entrada : DataFrame RawRow)
    : Outcome (DataFrame CleanRow * DataFrame EnrichedRow) :=
  let cols := columns entrada in
  let df :=
    {| columns := cols;
       rows := map (fun r => {| raw := r;
                                pregunta_limpia := limpiar_texto (user_utterances r) |})
                   (rows entrada) |} in
  let filas_limpias := filter no_es_ruido (rows df) in
  match filas_limpias with
  | [] => Raises AttributeError
  | _ :: _ =>
      let df_limpio :=
        {| columns := cols;
           rows := map (clasificar_fila cols) filas_limpias |} in
      Returns (df, df_limpio)
  end.

End Loader.

(** [aplicar_filtros(df, categoria, subcategoria, turnos_min)] *)
Definition aplicar_filtros (df : DataFrame EnrichedRow)
    (categoria_sel subcategoria_sel : str) (turnos_min : Z)
    : DataFrame EnrichedRow :=
  let df_filtrado := rows df in
  let df_filtrado :=
    if negb (str_eqb categoria_sel TODAS)
    then filter (fun r => str_eqb (categoria r) categoria_sel) df_filtrado
    else df_filtrado in
  let df_filtrado :=
    if negb (str_eqb subcategoria_sel TODAS)
    then filter (fun r => str_eqb (subcategoria r) subcategoria_sel) df_filtrado
    else df_filtrado in
  let conversaciones_validas := max_turn_position e_conversation e_turn (rows df) in
  let conversaciones_validas :=
    map fst (filter (fun g => (turnos_min <=? snd g)%Z) conversaciones_validas) in
  let df_filtrado :=
    filter (fun r => str_in (e_conversation r) conversaciones_validas) df_filtrado in
  {| columns := columns df; rows := df_filtrado |}.

(** [app.py]: [main] hands [df_limpio] to [render_exploracion_datos], whose
    slider offers the minimum turn counts from 1 to the largest
    [turn_position] of that frame and which calls [aplicar_filtros] on it. *)
Definition slider_admite (df : DataFrame EnrichedRow) (turnos_min : Z) : bool :=
  match rows df with
  | [] => false
  | r :: rs =>
      let maximo := fold_left (fun m r' => Z.max m (e_turn r')) rs (e_turn r) in
      (1 <=? turnos_min)%Z && (turnos_min <=? maximo)%Z
  end.

Section App.
Context {U : Unicode}.

Definition exploracion_datos (entrada : DataFrame RawRow)
    (categoria_sel subcategoria_sel : str) (turnos_min : Z)
    : Outcome (DataFrame EnrichedRow) :=
  match cargar_y_procesar_datos entrada with
  | Returns (df_original, df_limpio) =>
      Returns (aplicar_filtros df_limpio categoria_sel subcategoria_sel turnos_min)
  | Raises e => Raises e
  end.

End App.

(* ================================================================== *)
(** * utils.py: es_saludo_basico; data_loader.py: obtener_top_preguntas *)
(* ================================================================== *)

Section Greeting.
Context {U : Unicode}.

(** [str.split()]: the maximal runs of non-whitespace characters;
    [palabra] is the run read so far. *)
Fixpoint split_from (palabra : str) (s : str) : list str :=
  match s with
  | [] => match palabra with [] => [] | _ => [palabra] end
  | c :: t =>
      if is_space c
      then match palabra with
           | [] => split_from [] t
           | _ => palabra :: split_from [] t
           end
      else split_from (palabra ++ [c]) t
  end.

Definition split (s : str) : list str := split_from [] s.

(** [set(...)] of a list of words, as a list without repetition. *)
Fixpoint set_of (l : list str) : list str :=
  match l with
  | [] => []
  | x :: t => if str_in x t then set_of t else x :: set_of t
  end.

Definition es_saludo_basico (texto : cell) : bool :=
  let texto_limpio := limpiar_texto texto in
  let palabras := set_of (split texto_limpio) in
  (0 <? List.length (filter (fun w => str_in w SALUDOS_BASICOS) palabras))%nat
  && (List.length palabras <=? 3)%nat.

End Greeting.

(** [Series.sort_values(ascending=False)] on the counts, with the sort
    kind that pandas picks by default.  It is library code; what the
    library documents of it is [PandasSort] below, which says nothing on
    the order of equal counts. *)
Class Pandas := {
  sort_values_desc : list (str * nat) -> list (str * nat)
}.

Class PandasSort (P : Pandas) := {
  sort_values_perm : forall l, Permutation (sort_values_desc l) l;
  sort_values_sorted :
    forall l, StronglySorted (fun a b => (snd b <= snd a)%nat) (sort_values_desc l)
}.

(** The distinct values with their number of occurrences, in order of
    first appearance. *)
Definition contar_valores (l : list str) : list (str * nat) :=
  fold_left (fun groups x =>
               acumular (fun v : str => v) (fun _ => 1%nat) (fun n _ => S n) x groups)
            l [].

(** Two sorts by insertion that meet [PandasSort]: the first puts a new
    element before the elements of equal count, the second after them. *)
Fixpoint insertar_desc (antes_de_iguales : bool) (g : str * nat)
    (l : list (str * nat)) : list (str * nat) :=
  match l with
  | [] => [g]
  | h :: t =>
      if (if antes_de_iguales then snd h <=? snd g else snd h <? snd g)%nat
      then g :: l
      else h :: insertar_desc antes_de_iguales g t
  end.

Definition ordenar_desc (antes_de_iguales : bool) (l : list (str * nat))
    : list (str * nat) :=
  fold_right (insertar_desc antes_de_iguales) [] l.

Definition INTERACCIONES_GENERALES : str := lit "Interacciones Generales".

Section TopPreguntas.
Context {U : Unicode} {P : Pandas}.

(** [Series.value_counts()] *)
Definition value_counts (l : list str) : list (str * nat) :=
  sort_values_desc (contar_valores l).

(** The rows that [obtener_top_preguntas] counts. *)
Definition filas_faqs (df : DataFrame EnrichedRow) (filtrar_saludos : bool)
    : list EnrichedRow :=
  let df_faqs := rows df in
  if filtrar_saludos then
    let df_faqs :=
      filter (fun r => negb (es_saludo_basico (Text (pregunta_limpia (clean r)))))
             df_faqs in
    filter (fun r => negb (str_eqb (categoria r) INTERACCIONES_GENERALES)) df_faqs
  else df_faqs.

(** [obtener_top_preguntas(df, n, filtrar_saludos)]: the columns
    Pregunta and Frecuencia of the result, without rows when nothing is
    left to count. *)
Definition obtener_top_preguntas (df : DataFrame EnrichedRow) (n : nat)
    (filtrar_saludos : bool) : list (str * nat) :=
  let df_faqs := filas_faqs df filtrar_saludos in
  let top_questions :=
    firstn n (value_counts (map (fun r => pregunta_limpia (clean r)) df_faqs)) in
  top_questions.

End TopPreguntas.

(* ================================================================== *)
(** * Vocabulary of the statements *)
(* ================================================================== *)

(** The taxonomy as the nested loops visit it: categories in insertion
    order, and within a category its subcategories in insertion order. *)
Definition entradas : list (str * str * list str) :=
  flat_map (fun cat => map (fun sub => (fst cat, fst sub, snd sub)) (snd cat))
           CATEGORIAS_SUBCATEGORIAS.

Definition matches_de (pregunta : str) (e : str * str * list str) : nat :=
  contar_matches (snd e) pregunta.

Definition score_de (pregunta : str) (e : str * str * list str) : Q :=
  cociente (matches_de pregunta e) (List.length (snd e)).

(** [kw] is a substring of [texto]: [texto] is some characters, then
    [kw], then the rest. *)
Definition es_subcadena (kw texto : str) : Prop :=
  exists antes despues, texto = antes ++ kw ++ despues.

(** [n] is the number of keywords of the list that are substrings of
    [texto], each position of the list counted once. *)
Inductive numero_de_subcadenas (texto : str) : list str -> nat -> Prop :=
| ninguna : numero_de_subcadenas texto [] 0
| ocurre (kw : str) (kws : list str) (n : nat) :
    es_subcadena kw texto ->
    numero_de_subcadenas texto kws n ->
    numero_de_subcadenas texto (kw :: kws) (S n)
| no_ocurre (kw : str) (kws : list str) (n : nat) :
    ~ es_subcadena kw texto ->
    numero_de_subcadenas texto kws n ->
    numero_de_subcadenas texto (kw :: kws) n.

(** The rational number [m / n]. *)
Definition division (m n : nat) : Q :=
  (inject_Z (Z.of_nat m) / inject_Z (Z.of_nat n))%Q.

(** [m] is the largest [turn_position] among the rows of conversation [k]. *)
Definition max_turnos_en {R} (conv : R -> str) (turn : R -> Z)
    (rs : list R) (k : str) (m : Z) : Prop :=
  (exists r, In r rs /\ conv r = k /\ turn r = m) /\
  (forall r, In r rs -> conv r = k -> (turn r <= m)%Z).

(** The filter as the specification words it, with two datasets: category
    and subcategory are matched on the enriched rows, the conversations
    that reach the minimum are taken from the original dataset, and the two
    are intersected by conversation name. *)
Definition filtrar_con_dataset_original
    (enriched : DataFrame EnrichedRow) (original : DataFrame CleanRow)
    (categoria_sel subcategoria_sel : str) (turnos_min : Z)
    : list EnrichedRow :=
  let por_categoria :=
    filter (fun r => str_eqb categoria_sel TODAS
                     || str_eqb (categoria r) categoria_sel) (rows enriched) in
  let por_subcategoria :=
    filter (fun r => str_eqb subcategoria_sel TODAS
                     || str_eqb (subcategoria r) subcategoria_sel) por_categoria in
  let max_turns := max_turn_position c_conversation c_turn (rows original) in
  let validas :=
    map fst (filter (fun g => (turnos_min <=? snd g)%Z) max_turns) in
  filter (fun r => str_in (e_conversation r) validas) por_subcategoria.

(** ** Sample data *)

Definition sin_columnas_opcionales : Columns :=
  {| col_intent_name := false; col_live_agent_handoff := false;
     col_end_session_exit := false |}.

Definition interaccion (conv : string) (turno : Z) (texto : string) : RawRow :=
  {| user_utterances := Text (lit texto); conversation_name := lit conv;
     turn_position := turno; intent_name := NaN;
     live_agent_handoff := false; end_session_exit := false |}.

(** Conversation A loses its second turn to the noise filter. *)
Definition ejemplo_dos_conversaciones : DataFrame RawRow :=
  {| columns := sin_columnas_opcionales;
     rows := [ interaccion "A" 1 "quiero rastrear mi pedido";
               interaccion "A" 2 "ok";
               interaccion "B" 2 "donde viene mi paquete" ] |}.

Definition ejemplo_alx1 : Series :=
  {| s_user_utterances := Text (lit "necesito cambiar el filtro de mi ALX1");
     s_intent_name := None; s_pregunta_limpia := None |}.

(** Three of the nine keywords of "Rastreo y Estatus" occur in this
    utterance, and "ro", one of the six of "Osmosis Inversa". *)
Definition ejemplo_tres_keywords : Series :=
  {| s_user_utterances := Text (lit "Quiero rastrear el envio de mi pedido!");
     s_intent_name := None; s_pregunta_limpia := None |}.

Definition entrada_rastreo_y_estatus : str * str * list str :=
  (lit "Gesti" ++ [243%N] ++ lit "n de Pedidos", lit "Rastreo y Estatus",
   [lit "pedido"; lit "rastrear"; lit "estatus"; lit "guia"; lit "donde viene";
    lit "llegado"; lit "seguimiento"; lit "envio"; lit "paquete"]).

(** An upload in which every utterance is noise. *)
Definition ejemplo_todo_ruido : DataFrame RawRow :=
  {| columns := sin_columnas_opcionales;
     rows := [ interaccion "A" 1 "ok";
               interaccion "A" 2 "Si.";
               interaccion "B" 1 "..." ] |}.

(** The row of "otros" as the loader hands it over, with its column
    [pregunta_limpia]. *)
Definition ejemplo_otros_limpio : Series :=
  {| s_user_utterances := Text (lit "otros");
     s_intent_name := None; s_pregunta_limpia := Some (lit "otros") |}.


Definition entrada_funcionalidad_alx1 : str * str * list str :=
  (lit "Purificador ALX1", lit "Funcionalidad ALX1",
   [lit "alx1"; lit "alta demanda"; lit "conecta"; lit "directo";
    lit "presion"; lit "flujo continuo"]).


(** One turn of the inner loop, on a flattened entry. *)
Definition paso (pregunta : str) (st : Mejor) (e : str * str * list str) : Mejor :=
  paso_subcategoria pregunta (fst (fst e)) st (snd (fst e), snd e).

(** What the two loop variables hold after the entries [vistas]. *)
Definition invariante (pregunta : str) (vistas : list (str * str * list str))
    (st : Mejor) : Prop :=
  match fst st with
  | None =>
      snd st = 0%Q /\ forall e, In e vistas -> matches_de pregunta e = 0%nat
  | Some (c, s, q) =>
      snd st = q /\
      exists i kws,
        nth_error vistas i = Some (c, s, kws) /\
        (0 < matches_de pregunta (c, s, kws))%nat /\
        q = score_de pregunta (c, s, kws) /\
        (forall j e, nth_error vistas j = Some e ->
                     (0 < matches_de pregunta e)%nat ->
                     (score_de pregunta e <= q)%Q) /\
        (forall j e, (j < i)%nat -> nth_error vistas j = Some e ->
                     (0 < matches_de pregunta e)%nat ->
                     (score_de pregunta e < q)%Q)
  end.

(** The keyword path ended without a best match. *)
Definition fallback_tomado {U : Unicode} (row : Series) : Prop :=
  intent_valido row = None /\
  fst (mejor_coincidencia (pregunta_de row)) = None.

(** The aggregate of the group of [k]: the fold of [step] over its rows
    in their order, started from [init] of the first. *)
Definition agregado {R A} (key : R -> str) (init : R -> A) (step : A -> R -> A)
    (k : str) (rs : list R) : option A :=
  match filter (fun r => str_eqb (key r) k) rs with
  | [] => None
  | r0 :: rest => Some (fold_left step rest (init r0))
  end.

Fixpoint buscar {A} (k : str) (groups : list (str * A)) : option A :=
  match groups with
  | [] => None
  | (k', a) :: rest => if str_eqb k k' then Some a else buscar k rest
  end.

(** [df]: the uploaded rows, each with its normalised utterance. *)
Definition con_pregunta_limpia {U : Unicode} (r : RawRow) : CleanRow :=
  {| raw := r; pregunta_limpia := limpiar_texto (user_utterances r) |}.

(** The frame [df] of the loader once the column has been added. *)
Definition df_con_pregunta_limpia {U : Unicode} (entrada : DataFrame RawRow)
    : DataFrame CleanRow :=
  {| columns := columns entrada;
     rows := map con_pregunta_limpia (rows entrada) |}.

(** Whitespace occurs only as single U+0020 characters. *)
Fixpoint espacios_simples {U : Unicode} (s : str) : Prop :=
  match s with
  | [] => True
  | c :: t =>
      (is_space c = true ->
       c = SPACE /\ match t with [] => True | d :: _ => is_space d = false end)
      /\ espacios_simples t
  end.

Definition empieza_sin_espacio {U : Unicode} (s : str) : Prop :=
  match s with [] => True | d :: _ => is_space d = false end.

Definition ejemplo_texto : cell := Text (lit "  Hola,   MUNDO!! Que_tal? ").

(* ================================================================== *)
(** * charts.py and app.py: the data behind the screens *)
(* ================================================================== *)

(** [(mask).sum()]: the number of rows at which a boolean mask holds. *)
Definition contar_si {A} (mask : A -> bool) (l : list A) : Z :=
  Z.of_nat (List.length (filter mask l)).

(** The [counts] of [crear_pie_distribucion_longitud], for the bins
    '1-2 turnos', '3-5 turnos', '6-10 turnos', '11+ turnos'. *)
Definition distribucion_longitud (conversaciones_df : list (str * (Z * Z)))
    : list Z :=
  let max_turnos := map (fun g => fst (snd g)) conversaciones_df in
  [ contar_si (fun m => (m <=? 2)%Z) max_turnos;
    contar_si (fun m => (3 <=? m)%Z && (m <=? 5)%Z) max_turnos;
    contar_si (fun m => (6 <=? m)%Z && (m <=? 10)%Z) max_turnos;
    contar_si (fun m => (10 <? m)%Z) max_turnos ].

(** [metricas[clave]] *)
Fixpoint dict_get (clave : string) (d : Dict) : option Metrica :=
  match d with
  | [] => None
  | (k, v) :: rest => if String.eqb clave k then Some v else dict_get clave rest
  end.

(** The [categoria_counts] of [crear_barras_categorias]. *)
Definition categoria_counts {P : Pandas} (df : DataFrame EnrichedRow)
    : list (str * nat) :=
  value_counts (map categoria (rows df)).

(** ** Vocabulary of the further statements *)

(** Sample frames: the three-row upload after the loader. *)
Definition ejemplo_df_original : DataFrame CleanRow :=
  df_con_pregunta_limpia (U := Latin1.tables) ejemplo_dos_conversaciones.

Definition ejemplo_df_limpio : DataFrame EnrichedRow :=
  match cargar_y_procesar_datos (U := Latin1.tables) ejemplo_dos_conversaciones with
  | Returns (_, df_limpio) => df_limpio
  | Raises _ => {| columns := sin_columnas_opcionales; rows := [] |}
  end.

(** A second upload: a conversation of three turns and one of one turn,
    with flags. *)
Definition ejemplo_conversacion_larga : DataFrame RawRow :=
  {| columns := {| col_intent_name := false; col_live_agent_handoff := true;
                   col_end_session_exit := false |};
     rows := [ interaccion "C" 1 "hola";
               interaccion "C" 2 "quiero rastrear mi pedido";
               {| user_utterances := Text (lit "necesito un agente");
                  conversation_name := lit "C"; turn_position := 3;
                  intent_name := NaN; live_agent_handoff := true;
                  end_session_exit := false |};
               interaccion "D" 1 "cuanto cuesta el filtro" ] |}.

Definition ejemplo_df_original_c : DataFrame CleanRow :=
  df_con_pregunta_limpia (U := Latin1.tables) ejemplo_conversacion_larga.

Definition ejemplo_df_c : DataFrame EnrichedRow :=
  match cargar_y_procesar_datos (U := Latin1.tables) ejemplo_conversacion_larga with
  | Returns (_, df_limpio) => df_limpio
  | Raises _ => {| columns := sin_columnas_opcionales; rows := [] |}
  end.

(** A sort that meets [PandasSort], for the sample rankings. *)
Definition pandas_por_insercion : Pandas :=
  {| sort_values_desc := ordenar_desc true |}.

Definition fila_por_defecto : EnrichedRow :=
  {| clean := {| raw := {| user_utterances := NaN; conversation_name := [];
                           turn_position := 0; intent_name := NaN;
                           live_agent_handoff := false;
                           end_session_exit := false |};
                 pregunta_limpia := [] |};
     categoria := []; subcategoria := []; confidence := 0 |}.

(** The row of [ejemplo_df_c] at a position. *)
Definition fila_c (n : nat) : EnrichedRow :=
  nth n (rows ejemplo_df_c) fila_por_defecto.

Definition ejemplo_rastrear : Series :=
  {| s_user_utterances := Text (lit "rastrear");
     s_intent_name := None; s_pregunta_limpia := Some (lit "rastrear") |}.

Definition ejemplo_rastrear_pedido : Series :=
  {| s_user_utterances := Text (lit "quiero rastrear mi pedido");
     s_intent_name := None;
     s_pregunta_limpia := Some (lit "quiero rastrear mi pedido") |}.



(** The members of [PALABRAS_RUIDO] of more than 2 characters. *)
Definition PALABRAS_RUIDO_LARGAS : list str :=
  [lit "que"; lit "una"; lit "los"; lit "las"; lit "con"; lit "para"; lit "por"].

Definition termina_sin_espacio {U : Unicode} (s : str) : Prop :=
  match rev s with [] => True | d :: _ => is_space d = false end.

(** The shape of a normalised text. *)
Definition forma_normal {U : Unicode} (s : str) : Prop :=
  espacios_simples s /\ empieza_sin_espacio s /\ termina_sin_espacio s /\
  Forall (fun c => kept c = true) s.

(** The row passes [aplicar_filtros] on the frame [df]. *)
Definition pasa_filtros (df : DataFrame EnrichedRow)
    (categoria_sel subcategoria_sel : str) (turnos_min : Z) (r : EnrichedRow)
    : bool :=
  ((str_eqb categoria_sel TODAS || str_eqb (categoria r) categoria_sel)
   && (str_eqb subcategoria_sel TODAS || str_eqb (subcategoria r) subcategoria_sel))
  && str_in (e_conversation r)
       (map fst (filter (fun g => (turnos_min <=? snd g)%Z)
                        (max_turn_position e_conversation e_turn (rows df)))).

Definition confianza (c : Clasificacion) : Q := snd c.

(** The cell holds a text: what [count] counts. *)
Definition es_texto (c : cell) : bool :=
  match c with NaN => false | Text _ => true end.

(** The rows of conversation [k]. *)
Definition filas_de {R} (conv : R -> str) (k : str) (rs : list R) : list R :=
  filter (fun r => str_eqb (conv r) k) rs.

(* ================================================================== *)
(** * Strings: the boolean tests decide what they should *)
(* ================================================================== *)

Lemma char_eqb_eq (a b : char) : char_eqb a b = true <-> a = b.
Proof. apply N.eqb_eq. Qed.

Lemma str_eqb_eq (a b : str) : str_eqb a b = true <-> a = b.
Proof.
  revert b; induction a as [|x a IH]; intros [|y b]; simpl;
    try (split; (reflexivity || discriminate)).
  rewrite andb_true_iff, char_eqb_eq, IH.
  split; [intros [-> ->]; reflexivity | intros E; inversion E; auto].
Qed.

Lemma str_eqb_refl (a : str) : str_eqb a a = true.
Proof. apply str_eqb_eq; reflexivity. Qed.

Lemma str_eqb_neq (a b : str) : str_eqb a b = false <-> a <> b.
Proof.
  rewrite <- str_eqb_eq. destruct (str_eqb a b); split; congruence.
Qed.

Lemma str_in_In (x : str) (xs : list str) : str_in x xs = true <-> In x xs.
Proof.
  unfold str_in. rewrite existsb_exists. split.
  - intros (y & Hy & E). apply str_eqb_eq in E. subst; assumption.
  - intros H. exists x. split; [assumption | apply str_eqb_refl].
Qed.

Lemma prefixb_spec (p s : str) :
  prefixb p s = true <-> exists t, s = p ++ t.
Proof.
  revert s; induction p as [|x p IH]; intros s; simpl.
  - split; [intros _; exists s; reflexivity | reflexivity].
  - destruct s as [|y s].
    + split; [discriminate | intros (t & E); discriminate].
    + rewrite andb_true_iff, char_eqb_eq, IH. split.
      * intros (-> & t & ->). exists t; reflexivity.
      * intros (t & E). inversion E. split; [reflexivity | exists t; reflexivity].
Qed.

(** [contains] is substring containment. *)
Lemma contains_spec (needle hay : str) :
  contains needle hay = true <-> exists a b, hay = a ++ needle ++ b.
Proof.
  induction hay as [|y hay IH].
  - simpl. rewrite orb_false_r, prefixb_spec. split.
    + intros (t & E). exists [], t. exact E.
    + intros (a & b & E). destruct a as [|? ?]; [|discriminate].
      exists b. exact E.
  - cbn [contains]. rewrite orb_true_iff, prefixb_spec, IH. split.
    + intros [(t & E) | (a & b & E)].
      * exists [], t. exact E.
      * exists (y :: a), b. simpl. rewrite E. reflexivity.
    + intros (a & b & E). destruct a as [|x a].
      * left. exists b. exact E.
      * right. inversion E. exists a, b. reflexivity.
Qed.

Lemma contar_matches_cero (keywords : list str) (pregunta : str) :
  contar_matches keywords pregunta = 0%nat <->
  forall kw, In kw keywords -> contains kw pregunta = false.
Proof.
  unfold contar_matches. induction keywords as [|k ks IH]; simpl.
  - split; [intros _ kw [] | reflexivity].
  - destruct (contains k pregunta) eqn:E; simpl.
    + split; [discriminate |].
      intros H. specialize (H k (or_introl eq_refl)). congruence.
    + rewrite IH. split.
      * intros H kw [<- | Hin]; auto.
      * intros H kw Hin. apply H. right; assumption.
Qed.

Lemma contar_matches_le_len (keywords : list str) (pregunta : str) :
  (contar_matches keywords pregunta <= List.length keywords)%nat.
Proof. unfold contar_matches. apply filter_length_le. Qed.

(** [matches] of the code is the number of keywords that are substrings
    of the utterance. *)
Lemma numero_de_subcadenas_contar_matches (texto : str) (kws : list str) (n : nat) :
  numero_de_subcadenas texto kws n <-> n = contar_matches kws texto.
Proof.
  unfold contar_matches. split.
  - induction 1 as [|kw kws n Hs _ IH|kw kws n Hs _ IH]; simpl.
    + reflexivity.
    + apply contains_spec in Hs. rewrite Hs. simpl. congruence.
    + destruct (contains kw texto) eqn:E; [|exact IH].
      exfalso. apply Hs. apply contains_spec. exact E.
  - intros ->. induction kws as [|kw kws IH]; simpl.
    + constructor.
    + destruct (contains kw texto) eqn:E; simpl.
      * apply ocurre; [apply contains_spec; exact E | exact IH].
      * apply no_ocurre; [|exact IH].
        intros Hs. apply contains_spec in Hs. congruence.
Qed.

Lemma Zpos_of_nat (n : nat) : (0 < n)%nat -> Zpos (Pos.of_nat n) = Z.of_nat n.
Proof.
  intros H. rewrite <- (positive_nat_Z (Pos.of_nat n)).
  rewrite Nat2Pos.id by lia. reflexivity.
Qed.

(** [score] of the code is the number [matches / len(keywords)]. *)
Lemma cociente_division (m n : nat) :
  (0 < n)%nat -> (cociente m n == division m n)%Q.
Proof.
  intros H. unfold cociente, division.
  rewrite Qmake_Qdiv, Zpos_of_nat by exact H. reflexivity.
Qed.

Lemma division_cero (n : nat) : (division 0 n == 0)%Q.
Proof. unfold division, Qdiv. simpl. apply Qmult_0_l. Qed.

(* ================================================================== *)
(** * The scan of the taxonomy *)
(* ================================================================== *)

Lemma Qgtb_true (a b : Q) : Qgtb a b = true <-> (b < a)%Q.
Proof. unfold Qgtb, Qlt. apply Z.ltb_lt. Qed.

Lemma Qgtb_false (a b : Q) : Qgtb a b = false <-> (a <= b)%Q.
Proof. unfold Qgtb, Qle. rewrite Z.ltb_ge. reflexivity. Qed.

Lemma cociente_positivo (m n : nat) : (0 < m)%nat -> (0 < cociente m n)%Q.
Proof. intros H. unfold cociente, Qlt. simpl. lia. Qed.

Lemma fold_left_ext {A B} (f g : A -> B -> A) :
  (forall a b, f a b = g a b) ->
  forall l a, fold_left f l a = fold_left g l a.
Proof.
  intros E l. induction l as [|b l IH]; intros a; simpl;
    [reflexivity | rewrite E; apply IH].
Qed.

Lemma fold_left_map {A B C} (f : A -> B -> A) (h : C -> B) (l : list C) (a : A) :
  fold_left f (map h l) a = fold_left (fun a x => f a (h x)) l a.
Proof. revert a; induction l as [|x l IH]; intros a; simpl; auto. Qed.

Lemma fold_left_flat_map {A B C} (f : A -> B -> A) (g : C -> list B)
    (l : list C) (a : A) :
  fold_left f (flat_map g l) a = fold_left (fun a x => fold_left f (g x) a) l a.
Proof.
  revert a; induction l as [|x l IH]; intros a; simpl; [reflexivity|].
  rewrite fold_left_app. apply IH.
Qed.

(** The nested loops visit [entradas] from left to right. *)
Lemma mejor_coincidencia_entradas (pregunta : str) :
  mejor_coincidencia pregunta = fold_left (paso pregunta) entradas (None, 0%Q).
Proof.
  unfold mejor_coincidencia, entradas.
  rewrite fold_left_flat_map.
  apply fold_left_ext. intros st [categoria subcategorias].
  unfold paso_categoria. rewrite fold_left_map.
  apply fold_left_ext. intros st' [subcategoria keywords]. reflexivity.
Qed.

Lemma nth_error_snoc {A} (l : list A) (x : A) (j : nat) (y : A) :
  nth_error (l ++ [x]) j = Some y ->
  (j < List.length l /\ nth_error l j = Some y)%nat \/ (j = List.length l /\ y = x).
Proof.
  intros H. destruct (Nat.lt_ge_cases j (List.length l)) as [Hlt | Hge].
  - left. rewrite nth_error_app1 in H by assumption. auto.
  - right. rewrite nth_error_app2 in H by assumption.
    destruct (j - List.length l)%nat as [|k] eqn:E; simpl in H.
    + split; [lia | congruence].
    + destruct k; discriminate.
Qed.

Lemma invariante_paso pregunta vistas st e :
  invariante pregunta vistas st ->
  invariante pregunta (vistas ++ [e]) (paso pregunta st e).
Proof.
  destruct e as [[c s] kws]. destruct st as [mejor_match mejor_score].
  unfold invariante, paso, paso_subcategoria. cbn [fst snd].
  change (contar_matches kws pregunta) with (matches_de pregunta (c, s, kws)).
  change (cociente (matches_de pregunta (c, s, kws)) (List.length kws))
    with (score_de pregunta (c, s, kws)).
  intros Inv.
  destruct (0 <? matches_de pregunta (c, s, kws))%nat eqn:Hm.
  - apply Nat.ltb_lt in Hm.
    destruct (Qgtb (score_de pregunta (c, s, kws)) mejor_score) eqn:Hgt; cbn [fst snd].
    + (* a strictly greater score: the entry becomes the best match *)
      apply Qgtb_true in Hgt. split; [reflexivity|].
      exists (List.length vistas), kws. repeat split.
      * rewrite nth_error_app2, Nat.sub_diag by lia. reflexivity.
      * assumption.
      * intros j e' Hj Hpos.
        apply nth_error_snoc in Hj. destruct Hj as [[Hlt Hj] | [_ ->]];
          [|apply Qle_refl].
        destruct mejor_match as [[[c0 s0] q0]|].
        -- destruct Inv as (-> & i & kws0 & _ & _ & _ & Hle & _).
           apply Qlt_le_weak. eapply Qle_lt_trans; [eapply Hle; eauto | exact Hgt].
        -- destruct Inv as (_ & Hnone).
           apply nth_error_In in Hj. apply Hnone in Hj. lia.
      * intros j e' Hlt Hj Hpos.
        rewrite nth_error_app1 in Hj by assumption.
        destruct mejor_match as [[[c0 s0] q0]|].
        -- destruct Inv as (-> & i & kws0 & _ & _ & _ & Hle & _).
           eapply Qle_lt_trans; [eapply Hle; eauto | exact Hgt].
        -- destruct Inv as (_ & Hnone).
           apply nth_error_In in Hj. apply Hnone in Hj. lia.
    + (* not strictly greater: the earlier best match stays *)
      apply Qgtb_false in Hgt.
      destruct mejor_match as [[[c0 s0] q0]|]; cbn [fst snd] in *.
      * destruct Inv as (-> & i & kws0 & Hi & Hpos0 & Hq & Hle & Hlt).
        split; [reflexivity|]. exists i, kws0.
        assert (Hi' : (i < List.length vistas)%nat)
          by (apply nth_error_Some; congruence).
        repeat split; try assumption.
        -- rewrite nth_error_app1 by assumption. assumption.
        -- intros j e' Hj Hpos.
           apply nth_error_snoc in Hj. destruct Hj as [[_ Hj] | [_ ->]]; eauto.
        -- intros j e' Hji Hj Hpos.
           rewrite nth_error_app1 in Hj by lia. eauto.
      * destruct Inv as (-> & _). exfalso.
        pose proof (cociente_positivo (List.length kws) Hm) as Hp.
        fold (score_de pregunta (c, s, kws)) in Hp.
        apply (Qlt_irrefl 0). eapply Qlt_le_trans; eauto.
  - (* no keyword of the entry occurs: nothing changes *)
    apply Nat.ltb_ge in Hm.
    destruct mejor_match as [[[c0 s0] q0]|]; cbn [fst snd] in *.
    + destruct Inv as (-> & i & kws0 & Hi & Hpos0 & Hq & Hle & Hlt).
      split; [reflexivity|]. exists i, kws0.
      assert (Hi' : (i < List.length vistas)%nat)
        by (apply nth_error_Some; congruence).
      repeat split; try assumption.
      * rewrite nth_error_app1 by assumption. assumption.
      * intros j e' Hj Hpos.
        apply nth_error_snoc in Hj. destruct Hj as [[_ Hj] | [_ ->]]; eauto. lia.
      * intros j e' Hji Hj Hpos.
        rewrite nth_error_app1 in Hj by lia. eauto.
    + destruct Inv as (-> & Hnone). split; [reflexivity|].
      intros e' Hin. apply in_app_or in Hin. destruct Hin as [Hin | [<- | []]].
      * auto.
      * lia.
Qed.

Lemma invariante_fold pregunta (l : list (str * str * list str)) :
  invariante pregunta l (fold_left (paso pregunta) l (None, 0%Q)).
Proof.
  induction l as [|e l IH] using rev_ind.
  - simpl. split; [reflexivity | intros e []].
  - rewrite fold_left_app. simpl. apply invariante_paso. exact IH.
Qed.

Lemma invariante_mejor_coincidencia pregunta :
  invariante pregunta entradas (mejor_coincidencia pregunta).
Proof. rewrite mejor_coincidencia_entradas. apply invariante_fold. Qed.

(* ================================================================== *)
(** * The classifier *)
(* ================================================================== *)

Section ClassifierProperties.
Context {U : Unicode}.


(** Every row is classified, in one of three ways; the confidence is
    0.9, a positive quotient of a taxonomy entry, or 0. *)
Lemma clasificar_consulta_casos (row : Series) :
  (exists i, intent_valido row = Some i /\
     clasificar_consulta row = (str_title (replace_underscore i), POR_INTENT, 9 # 10))
  \/ (intent_valido row = None /\
      exists e, In e entradas /\
        (0 < matches_de (pregunta_de row) e)%nat /\
        clasificar_consulta row = (fst (fst e), snd (fst e), score_de (pregunta_de row) e))
  \/ (fallback_tomado row /\
      clasificar_consulta row = (SIN_CLASIFICAR, OTROS, 0%Q)).
Proof.
  unfold fallback_tomado, clasificar_consulta.
  destruct (intent_valido row) as [i|] eqn:Hi.
  - left. exists i. auto.
  - right. pose proof (invariante_mejor_coincidencia (pregunta_de row)) as Inv.
    unfold invariante in Inv.
    destruct (fst (mejor_coincidencia (pregunta_de row))) as [[[c s] q]|].
    + left. split; [reflexivity|].
      destruct Inv as (_ & i & kws & Hn & Hpos & -> & _).
      exists (c, s, kws). split; [eapply nth_error_In; eauto|]. auto.
    + right. auto.
Qed.

(** The score of an entry with a match is the number [matches / len]. *)
Lemma score_de_division (pregunta : str) (e : str * str * list str) :
  (0 < matches_de pregunta e)%nat ->
  (score_de pregunta e
   == division (matches_de pregunta e) (List.length (snd e)))%Q.
Proof.
  intros Hpos. unfold score_de. apply cociente_division.
  pose proof (contar_matches_le_len (snd e) pregunta) as Hle.
  unfold matches_de in Hpos. lia.
Qed.

(** C2.  When the intent override does not decide, and some keyword of
    the taxonomy is a substring of the normalised utterance, the
    classifier returns the category and the subcategory of an entry of
    the taxonomy together with its score, which is the number of its
    keywords that are substrings of the normalised utterance divided by
    the number of its keywords.  No entry of the taxonomy has a greater
    such quotient, and every earlier entry (in insertion order) has a
    strictly smaller one: the result is the first entry of greatest
    score. *)
Theorem clasificar_consulta_primer_mayor_score (row : Series) :
  intent_valido row = None ->
  (exists c s kws kw,
     In (c, s, kws) entradas /\ In kw kws /\
     es_subcadena kw (pregunta_de row)) ->
  exists i c s kws matches score,
    nth_error entradas i = Some (c, s, kws) /\
    numero_de_subcadenas (pregunta_de row) kws matches /\
    (0 < matches)%nat /\
    (score == division matches (List.length kws))%Q /\
    clasificar_consulta row = (c, s, score) /\
    (forall j c' s' kws' matches',
       nth_error entradas j = Some (c', s', kws') ->
       numero_de_subcadenas (pregunta_de row) kws' matches' ->
       (division matches' (List.length kws') <= score)%Q) /\
    (forall j c' s' kws' matches',
       (j < i)%nat ->
       nth_error entradas j = Some (c', s', kws') ->
       numero_de_subcadenas (pregunta_de row) kws' matches' ->
       (division matches' (List.length kws') < score)%Q).
Proof.
  intros Hi (c0 & s0 & kws0 & kw0 & Hin0 & Hkw0 & Hsub0).
  assert (Hpos0 : (0 < matches_de (pregunta_de row) (c0, s0, kws0))%nat).
  { destruct (matches_de (pregunta_de row) (c0, s0, kws0)) eqn:E; [|lia].
    exfalso. unfold matches_de in E. cbn [snd] in E.
    rewrite contar_matches_cero in E. specialize (E kw0 Hkw0).
    apply contains_spec in Hsub0. congruence. }
  unfold clasificar_consulta. rewrite Hi.
  pose proof (invariante_mejor_coincidencia (pregunta_de row)) as Inv.
  unfold invariante in Inv.
  destruct (fst (mejor_coincidencia (pregunta_de row))) as [[[c s] q]|].
  - destruct Inv as (_ & i & kws & Hn & Hpos & -> & Hle & Hlt).
    pose proof (cociente_positivo (List.length kws) Hpos) as Hq.
    fold (score_de (pregunta_de row) (c, s, kws)) in Hq.
    exists i, c, s, kws, (matches_de (pregunta_de row) (c, s, kws)),
           (score_de (pregunta_de row) (c, s, kws)).
    split; [exact Hn|].
    split; [apply numero_de_subcadenas_contar_matches; reflexivity|].
    split; [exact Hpos|].
    split; [exact (@score_de_division (pregunta_de row) (c, s, kws) Hpos)|].
    split; [reflexivity|]. split.
    + intros j c' s' kws' m' Hj Hm'.
      apply numero_de_subcadenas_contar_matches in Hm'. subst m'.
      destruct (contar_matches kws' (pregunta_de row)) eqn:E.
      * rewrite division_cero. apply Qlt_le_weak. exact Hq.
      * assert (Hp : (0 < matches_de (pregunta_de row) (c', s', kws'))%nat)
          by (unfold matches_de; cbn [snd]; lia).
        specialize (Hle j _ Hj Hp).
        rewrite (@score_de_division (pregunta_de row) (c', s', kws') Hp) in Hle.
        unfold matches_de in Hle at 1. cbn [snd] in Hle.
        rewrite E in Hle. exact Hle.
    + intros j c' s' kws' m' Hji Hj Hm'.
      apply numero_de_subcadenas_contar_matches in Hm'. subst m'.
      destruct (contar_matches kws' (pregunta_de row)) eqn:E.
      * rewrite division_cero. exact Hq.
      * assert (Hp : (0 < matches_de (pregunta_de row) (c', s', kws'))%nat)
          by (unfold matches_de; cbn [snd]; lia).
        specialize (Hlt j _ Hji Hj Hp).
        rewrite (@score_de_division (pregunta_de row) (c', s', kws') Hp) in Hlt.
        unfold matches_de in Hlt at 1. cbn [snd] in Hlt.
        rewrite E in Hlt. exact Hlt.
  - destruct Inv as (_ & Hnone). apply Hnone in Hin0. lia.
Qed.



End ClassifierProperties.


(** C10.  "Sin Clasificar" / "Otros" is itself an entry of the taxonomy:
    the row whose normalised utterance is "otros" is classified as this
    pair by the keyword path, with confidence 1/3, not by the fallback.
    Among the rows without a valid intent, the fallback is taken exactly
    when the confidence is 0. *)
Theorem sin_clasificar_otros_no_implica_fallback {U : Unicode} :
  (exists row q,
     intent_valido row = None /\
     clasificar_consulta row = (SIN_CLASIFICAR, OTROS, q) /\
     (0 < q)%Q /\
     ~ fallback_tomado row) /\
  (forall row,
     intent_valido row = None ->
     (fallback_tomado row <-> (snd (clasificar_consulta row) == 0)%Q)).
Proof.
  split.
  - exists ejemplo_otros_limpio, (1 # 3).
    split; [reflexivity | split; [reflexivity | split]].
    + unfold Qlt; simpl; lia.
    + intros [_ H]. vm_compute in H. discriminate.
  - intros row Hi.
    destruct (clasificar_consulta_casos row)
      as [(i & Hi' & _) | [(_ & e & Hin & Hpos & E) | (Hf & E)]].
    + congruence.
    + rewrite E. cbn [snd]. split.
      * intros [_ Hnone].
        pose proof (invariante_mejor_coincidencia (pregunta_de row)) as Inv.
        unfold invariante in Inv. rewrite Hnone in Inv.
        destruct Inv as (_ & Hz). apply Hz in Hin. lia.
      * intros Hq. exfalso.
        pose proof (cociente_positivo (List.length (snd e)) Hpos) as Hp.
        fold (score_de (pregunta_de row) e) in Hp.
        rewrite Hq in Hp. apply (Qlt_irrefl 0). exact Hp.
    + rewrite E. cbn [snd]. split; [reflexivity | auto].
Qed.

Section Ejemplos.
Local Existing Instance Latin1.tables.

Lemma clasificar_consulta_primer_mayor_score_witness :
  intent_valido ejemplo_tres_keywords = None /\
  pregunta_de ejemplo_tres_keywords = lit "quiero rastrear el envio de mi pedido" /\
  (exists c s kws kw,
     In (c, s, kws) entradas /\ In kw kws /\
     es_subcadena kw (pregunta_de ejemplo_tres_keywords)) /\
  clasificar_consulta ejemplo_tres_keywords =
    (lit "Gesti" ++ [243%N] ++ lit "n de Pedidos", lit "Rastreo y Estatus", 3 # 9) /\
  exists i c s kws matches score,
    nth_error entradas i = Some (c, s, kws) /\
    numero_de_subcadenas (pregunta_de ejemplo_tres_keywords) kws matches /\
    (0 < matches)%nat /\
    (score == division matches (List.length kws))%Q /\
    clasificar_consulta ejemplo_tres_keywords = (c, s, score) /\
    (forall j c' s' kws' matches',
       nth_error entradas j = Some (c', s', kws') ->
       numero_de_subcadenas (pregunta_de ejemplo_tres_keywords) kws' matches' ->
       (division matches' (List.length kws') <= score)%Q) /\
    (forall j c' s' kws' matches',
       (j < i)%nat ->
       nth_error entradas j = Some (c', s', kws') ->
       numero_de_subcadenas (pregunta_de ejemplo_tres_keywords) kws' matches' ->
       (division matches' (List.length kws') < score)%Q).
Proof.
  assert (H1 : intent_valido ejemplo_tres_keywords = None) by reflexivity.
  assert (H2 : exists c s kws kw,
                 In (c, s, kws) entradas /\ In kw kws /\
                 es_subcadena kw (pregunta_de ejemplo_tres_keywords)).
  { exists (fst (fst entrada_rastreo_y_estatus)),
           (snd (fst entrada_rastreo_y_estatus)),
           (snd entrada_rastreo_y_estatus), (lit "envio").
    split; [apply (nth_error_In entradas 0); reflexivity | split].
    - simpl. tauto.
    - exists (lit "quiero rastrear el "), (lit " de mi pedido").
      vm_compute. reflexivity. }
  split; [exact H1 | split; [vm_compute; reflexivity | split; [exact H2 | split]]].
  - vm_compute. reflexivity.
  - exact (@clasificar_consulta_primer_mayor_score Latin1.tables
             ejemplo_tres_keywords H1 H2).
Defined.



(** C9 (as the code has it).  "necesito cambiar el filtro de mi ALX1"
    is normalised to lower case and classified as "Gestion de Pedidos" /
    "Modificacion y Cancelacion" with score 1/6: "cambiar" is one of the
    six keywords of that entry, which comes first among the entries of
    greatest score, whether the row comes with its column
    [pregunta_limpia] from the loader or without it.  "Funcionalidad ALX1"
    reaches the same 1/6 later in the taxonomy, and no keyword of
    "Mantenimiento y Soporte" occurs. *)
Theorem ejemplo_alx1_gestion_de_pedidos :
  pregunta_de ejemplo_alx1 = lit "necesito cambiar el filtro de mi alx1" /\
  clasificar_consulta ejemplo_alx1 =
    (lit "Gesti" ++ [243%N] ++ lit "n de Pedidos",
     lit "Modificaci" ++ [243%N] ++ lit "n y Cancelaci" ++ [243%N] ++ lit "n",
     1 # 6) /\
  clasificar_consulta
    (fila sin_columnas_opcionales
       (con_pregunta_limpia
          (interaccion "A" 1 "necesito cambiar el filtro de mi ALX1")))
    = clasificar_consulta ejemplo_alx1 /\
  nth_error entradas 5 = Some entrada_funcionalidad_alx1 /\
  score_de (pregunta_de ejemplo_alx1) entrada_funcionalidad_alx1 = 1 # 6 /\
  map (matches_de (pregunta_de ejemplo_alx1))
      (filter (fun e => str_eqb (fst (fst e)) (lit "Mantenimiento y Soporte"))
              entradas) = [0; 0; 0]%nat.
Proof. repeat split; vm_compute; reflexivity. Qed.

(** The utterance is classified neither as "Purificador ALX1" /
    "Funcionalidad ALX1" nor under "Mantenimiento y Soporte". *)
Lemma ejemplo_alx1_ni_alx1_ni_mantenimiento :
  ~ ((fst (fst (clasificar_consulta ejemplo_alx1)) = lit "Purificador ALX1" /\
      snd (fst (clasificar_consulta ejemplo_alx1)) = lit "Funcionalidad ALX1")
     \/ fst (fst (clasificar_consulta ejemplo_alx1)) = lit "Mantenimiento y Soporte").
Proof.
  assert (E : fst (fst (clasificar_consulta ejemplo_alx1))
              = lit "Gesti" ++ [243%N] ++ lit "n de Pedidos")
    by (vm_compute; reflexivity).
  rewrite E. intros [[H _] | H]; vm_compute in H; discriminate.
Qed.

End Ejemplos.

(* ================================================================== *)
(** * groupby *)
(* ================================================================== *)

Section GroupByFacts.
Variables (R A : Type).
Variable key : R -> str.
Variable init : R -> A.
Variable step : A -> R -> A.

Let acc := acumular key init step.

Lemma buscar_acumular (r : R) (groups : list (str * A)) (k : str) :
  buscar k (acc r groups) =
    if str_eqb (key r) k
    then Some (match buscar k groups with
               | Some a => step a r
               | None => init r
               end)
    else buscar k groups.
Proof.
  subst acc. induction groups as [|[k' a] rest IH]; simpl.
  - destruct (str_eqb (key r) k) eqn:E.
    + apply str_eqb_eq in E. subst. rewrite str_eqb_refl. reflexivity.
    + apply str_eqb_neq in E.
      destruct (str_eqb k (key r)) eqn:E'; [|reflexivity].
      apply str_eqb_eq in E'. congruence.
  - destruct (str_eqb (key r) k') eqn:E1; simpl.
    + apply str_eqb_eq in E1. subst k'.
      destruct (str_eqb k (key r)) eqn:E2.
      * apply str_eqb_eq in E2. subst k. rewrite str_eqb_refl. reflexivity.
      * apply str_eqb_neq in E2.
        destruct (str_eqb (key r) k) eqn:E3; [|reflexivity].
        apply str_eqb_eq in E3. congruence.
    + destruct (str_eqb k k') eqn:E2.
      * apply str_eqb_eq in E2. subst k'. rewrite E1. reflexivity.
      * apply IH.
Qed.

Lemma claves_acumular (r : R) (groups : list (str * A)) :
  map fst (acc r groups) =
    if str_in (key r) (map fst groups) then map fst groups
    else map fst groups ++ [key r].
Proof.
  subst acc. unfold str_in.
  induction groups as [|[k' a] rest IH]; simpl; [reflexivity|].
  destruct (str_eqb (key r) k') eqn:E; simpl; [reflexivity|].
  rewrite IH. destruct (existsb (str_eqb (key r)) (map fst rest)); reflexivity.
Qed.

Lemma NoDup_acumular (r : R) (groups : list (str * A)) :
  NoDup (map fst groups) -> NoDup (map fst (acc r groups)).
Proof.
  intros H. rewrite claves_acumular.
  destruct (str_in (key r) (map fst groups)) eqn:E; [assumption|].
  rewrite <- (rev_involutive (map fst groups ++ [key r])).
  apply NoDup_rev. rewrite rev_app_distr. simpl. constructor.
  - rewrite <- in_rev. intros Hin. apply str_in_In in Hin. congruence.
  - apply NoDup_rev. assumption.
Qed.

Lemma In_buscar (groups : list (str * A)) (k : str) (a : A) :
  NoDup (map fst groups) ->
  (In (k, a) groups <-> buscar k groups = Some a).
Proof.
  induction groups as [|[k' a'] rest IH]; simpl; intros Hnd.
  - split; [intros [] | discriminate].
  - inversion Hnd as [|? ? Hnotin Hnd']; subst.
    destruct (str_eqb k k') eqn:E.
    + apply str_eqb_eq in E. subst k'. split.
      * intros [E' | Hin]; [congruence|].
        exfalso. apply Hnotin. apply (in_map fst) in Hin. exact Hin.
      * intros E'. left. congruence.
    + apply str_eqb_neq in E. rewrite <- IH by assumption. split.
      * intros [E' | Hin]; [congruence | assumption].
      * auto.
Qed.

Lemma In_insertar_por_clave (g x : str * A) (l : list (str * A)) :
  In x (insertar_por_clave g l) <-> x = g \/ In x l.
Proof.
  induction l as [|h rest IH]; simpl.
  - intuition auto.
  - destruct (str_ltb (fst h) (fst g)); simpl; rewrite ?IH; intuition auto.
Qed.

Lemma In_ordenar_por_clave (x : str * A) (l : list (str * A)) :
  In x (ordenar_por_clave l) <-> In x l.
Proof.
  unfold ordenar_por_clave. induction l as [|h rest IH]; simpl.
  - reflexivity.
  - rewrite In_insertar_por_clave, IH. intuition auto.
Qed.

Lemma acumulados (rs : list R) :
  let groups := fold_left (fun g r => acc r g) rs [] in
  NoDup (map fst groups) /\ forall k, buscar k groups = agregado key init step k rs.
Proof.
  induction rs as [|r rs IH] using rev_ind; simpl.
  - split; [constructor | reflexivity].
  - rewrite fold_left_app. simpl. destruct IH as [Hnd Hb]. split.
    + apply NoDup_acumular. assumption.
    + intros k. rewrite buscar_acumular, Hb. unfold agregado.
      rewrite filter_app. simpl.
      destruct (str_eqb (key r) k).
      * destruct (filter (fun r0 => str_eqb (key r0) k) rs) as [|r0 rest]; simpl.
        -- reflexivity.
        -- rewrite fold_left_app. reflexivity.
      * rewrite app_nil_r. reflexivity.
Qed.

(** A group of [groupby] is the aggregate of the rows of its key. *)
Lemma In_groupby (rs : list R) (k : str) (a : A) :
  In (k, a) (groupby key init step rs) <-> agregado key init step k rs = Some a.
Proof.
  unfold groupby. rewrite In_ordenar_por_clave.
  destruct (acumulados rs) as [Hnd Hb].
  rewrite In_buscar by exact Hnd. rewrite Hb. reflexivity.
Qed.

End GroupByFacts.

(* ================================================================== *)
(** * aplicar_filtros *)
(* ================================================================== *)

Lemma fold_max_spec {R} (turn : R -> Z) (rest : list R) (m0 : Z) :
  let m := fold_left (fun m r => Z.max m (turn r)) rest m0 in
  (m0 <= m)%Z /\
  (forall r, In r rest -> (turn r <= m)%Z) /\
  (m = m0 \/ exists r, In r rest /\ turn r = m).
Proof.
  revert m0. induction rest as [|r rest IH]; intros m0; simpl.
  - split; [lia | split; [intros r [] | left; reflexivity]].
  - destruct (IH (Z.max m0 (turn r))) as (Hge & Hall & Hwho).
    split; [lia | split].
    + intros r' [<- | Hin]; [lia | auto].
    + destruct Hwho as [E | (r' & Hin & E)].
      * destruct (Z.max_spec m0 (turn r)) as [[_ E'] | [_ E']].
        -- right. exists r. split; [left; reflexivity | congruence].
        -- left. congruence.
      * right. exists r'. auto.
Qed.

(** The groups of [groupby(...)['turn_position'].max()] are the
    conversations with their largest turn position. *)
Lemma max_turn_position_spec {R} (conv : R -> str) (turn : R -> Z)
    (rs : list R) (k : str) (m : Z) :
  In (k, m) (max_turn_position conv turn rs) <-> max_turnos_en conv turn rs k m.
Proof.
  unfold max_turn_position. rewrite In_groupby. unfold agregado, max_turnos_en.
  assert (HF : forall r, In r (filter (fun r => str_eqb (conv r) k) rs)
                         <-> In r rs /\ conv r = k).
  { intros r. rewrite filter_In, str_eqb_eq. reflexivity. }
  destruct (filter (fun r => str_eqb (conv r) k) rs) as [|r0 rest].
  - split; [discriminate|].
    intros [(r & Hin & Hk & _) _]. exfalso. apply (HF r). auto.
  - pose proof (fold_max_spec turn rest (turn r0)) as (Hge & Hall & Hwho).
    cbv zeta in Hge, Hall, Hwho.
    set (m' := fold_left (fun m r => Z.max m (turn r)) rest (turn r0)) in *.
    assert (Hmax : forall r, In r rs -> conv r = k -> (turn r <= m')%Z).
    { intros r Hin Hk. destruct (proj2 (HF r) (conj Hin Hk)) as [<- | Hr]; auto. }
    assert (Hin' : exists r, In r rs /\ conv r = k /\ turn r = m').
    { destruct Hwho as [E | (r & Hr & E)].
      - exists r0. destruct (proj1 (HF r0) (or_introl eq_refl)). auto.
      - exists r. destruct (proj1 (HF r) (or_intror Hr)). auto. }
    split.
    + intros E. injection E as <-. split; assumption.
    + intros [(r & Hin & Hk & E) Hle]. f_equal.
      destruct Hin' as (r' & Hr' & Hk' & E').
      specialize (Hmax r Hin Hk). specialize (Hle r' Hr' Hk'). lia.
Qed.

Lemma conversacion_valida (groups : list (str * Z)) (turnos_min : Z) (k : str) :
  str_in k (map fst (filter (fun g => (turnos_min <=? snd g)%Z) groups)) = true
  <-> exists m, In (k, m) groups /\ (turnos_min <= m)%Z.
Proof.
  rewrite str_in_In, in_map_iff. split.
  - intros ([k' m] & E & Hin). simpl in E. subst k'.
    apply filter_In in Hin. destruct Hin as [Hin Hle]. simpl in Hle.
    exists m. split; [assumption | lia].
  - intros (m & Hin & Hle). exists (k, m). split; [reflexivity|].
    apply filter_In. split; [assumption | simpl; lia].
Qed.

Lemma filter_filter {A} (f g : A -> bool) (l : list A) :
  filter f (filter g l) = filter (fun x => g x && f x) l.
Proof.
  induction l as [|x l IH]; simpl; [reflexivity|].
  destruct (g x); simpl; [destruct (f x)|]; rewrite IH; reflexivity.
Qed.

Lemma filter_true {A} (l : list A) : filter (fun _ => true) l = l.
Proof. induction l as [|x l IH]; simpl; congruence. Qed.

(** C1 (as the code has it).  [aplicar_filtros] has one dataset, the frame
    it is given: it keeps, in their order, the rows of that frame that
    pass the category and subcategory selections and whose conversation
    has, among the rows of that same frame, a largest [turn_position] of
    at least [turnos_min]. *)
Theorem aplicar_filtros_turnos_del_mismo_df
    (df : DataFrame EnrichedRow) (categoria_sel subcategoria_sel : str)
    (turnos_min : Z) :
  exists pasa : EnrichedRow -> bool,
    rows (aplicar_filtros df categoria_sel subcategoria_sel turnos_min)
      = filter pasa (rows df) /\
    forall r, pasa r = true <->
      (categoria_sel = TODAS \/ categoria r = categoria_sel) /\
      (subcategoria_sel = TODAS \/ subcategoria r = subcategoria_sel) /\
      exists max_turns,
        max_turnos_en e_conversation e_turn (rows df) (e_conversation r) max_turns /\
        (turnos_min <= max_turns)%Z.
Proof.
  set (validas := map fst (filter (fun g => (turnos_min <=? snd g)%Z)
                     (max_turn_position e_conversation e_turn (rows df)))).
  exists (fun r =>
    ((str_eqb categoria_sel TODAS || str_eqb (categoria r) categoria_sel)
     && (str_eqb subcategoria_sel TODAS || str_eqb (subcategoria r) subcategoria_sel))
    && str_in (e_conversation r) validas).
  split.
  - unfold aplicar_filtros. cbn [rows]. fold validas.
    rewrite <- !filter_filter. f_equal.
    destruct (str_eqb categoria_sel TODAS); simpl;
      destruct (str_eqb subcategoria_sel TODAS); simpl;
      rewrite ?filter_true; reflexivity.
  - intros r. rewrite !andb_true_iff, !orb_true_iff, !str_eqb_eq.
    subst validas. rewrite conversacion_valida.
    setoid_rewrite max_turn_position_spec. tauto.
Qed.


(* ================================================================== *)
(** * The loader and the noise filter *)
(* ================================================================== *)

Lemma no_es_ruido_spec (r : CleanRow) :
  no_es_ruido r = true <->
  ~ In (pregunta_limpia r) PALABRAS_RUIDO /\ (2 < List.length (pregunta_limpia r))%nat.
Proof.
  unfold no_es_ruido.
  rewrite andb_true_iff, negb_true_iff, Nat.ltb_lt.
  rewrite <- (str_in_In (pregunta_limpia r) PALABRAS_RUIDO).
  destruct (str_in (pregunta_limpia r) PALABRAS_RUIDO); intuition congruence.
Qed.

Section LoaderProperties.
Context {U : Unicode}.

Lemma clean_clasificar_fila (cols : Columns) (r : CleanRow) :
clean (clasificar_fila cols r) = r.
Proof.
unfold clasificar_fila.
destruct (clasificar_consulta (fila cols r)) as [[c s] q]. reflexivity.
Qed.

Lemma clasificacion_clasificar_fila (cols : Columns) (r : CleanRow) :
(categoria (clasificar_fila cols r), subcategoria (clasificar_fila cols r),
 confidence (clasificar_fila cols r)) = clasificar_consulta (fila cols r).
Proof.
unfold clasificar_fila.
destruct (clasificar_consulta (fila cols r)) as [[c s] q]. reflexivity.
Qed.

(** The loader returns exactly when some row passes the noise filter. *)
Lemma cargar_y_procesar_datos_sin_filas_limpias (entrada : DataFrame RawRow) :
(forall r, In r (rows entrada) -> no_es_ruido (con_pregunta_limpia r) = false) <->
cargar_y_procesar_datos entrada = Raises AttributeError.
Proof.
unfold cargar_y_procesar_datos. cbn [rows].
fold con_pregunta_limpia.
destruct (filter no_es_ruido (map con_pregunta_limpia (rows entrada)))
  as [|x l] eqn:E.
- split; [reflexivity | intros _ r Hin].
  destruct (no_es_ruido (con_pregunta_limpia r)) eqn:Hr; [|reflexivity].
  assert (Hx : In (con_pregunta_limpia r)
                  (filter no_es_ruido (map con_pregunta_limpia (rows entrada))))
    by (apply filter_In; split; [apply in_map; assumption | assumption]).
  rewrite E in Hx. destruct Hx.
- split; [|discriminate]. intros H. exfalso.
  assert (Hx : In x (filter no_es_ruido (map con_pregunta_limpia (rows entrada))))
    by (rewrite E; left; reflexivity).
  apply filter_In in Hx. destruct Hx as [Hx Hn].
  apply in_map_iff in Hx. destruct Hx as (r & <- & Hin).
  rewrite (H r Hin) in Hn. discriminate.
Qed.

(** The two outcomes of the loader.  A row of the upload is kept by the
    noise filter exactly when its normalised utterance is not a member of
    [PALABRAS_RUIDO] and is longer than 2 characters.  When at least one
    row is kept, the loader returns the upload with every row, unchanged,
    and its normalised utterance, and the kept rows, in order, each with
    the classification of the classifier on that row.  When no row is
    kept, it raises and returns neither. *)
Lemma filtro_de_ruido (entrada : DataFrame RawRow) :
  let df := df_con_pregunta_limpia entrada in
  let filas_limpias := filter no_es_ruido (rows df) in
  map raw (rows df) = rows entrada /\
  (forall r, In r (rows df) ->
     (In r filas_limpias <->
      ~ In (pregunta_limpia r) PALABRAS_RUIDO /\
      (2 < List.length (pregunta_limpia r))%nat)) /\
  match cargar_y_procesar_datos entrada with
  | Returns (df_original, df_limpio) =>
      df_original = df /\
      map clean (rows df_limpio) = filas_limpias /\
      (forall e, In e (rows df_limpio) ->
         (categoria e, subcategoria e, confidence e)
           = clasificar_consulta (fila (columns entrada) (clean e)))
  | Raises _ => filas_limpias = []
  end.
Proof.
  cbv zeta. unfold df_con_pregunta_limpia. cbn [rows].
  split; [rewrite map_map; simpl; apply map_id | split].
  - intros r Hin. rewrite filter_In, no_es_ruido_spec. tauto.
  - unfold cargar_y_procesar_datos. cbn [rows]. fold con_pregunta_limpia.
    destruct (filter no_es_ruido (map con_pregunta_limpia (rows entrada)))
      as [|x l]; [reflexivity|].
    split; [reflexivity | split].
    + cbn [rows]. rewrite map_map.
      rewrite (map_ext _ (fun r => r)) by apply clean_clasificar_fila.
      apply map_id.
    + cbn [rows]. intros e He.
      apply in_map_iff in He. destruct He as (r & <- & _).
      rewrite clean_clasificar_fila. apply clasificacion_clasificar_fila.
Qed.

End LoaderProperties.

Section EjemploFiltro.
Local Existing Instance Latin1.tables.

(** C5 (where the code departs from it).  On the upload whose three
    utterances are "ok", "Si." and "...", every row is noise: the
    normalised utterances are "ok", "si" and the empty string, and the
    filter keeps none of them.  The loader then raises [AttributeError]
    at [clasificacion.tolist()], before its [return]: it hands back no
    original dataset, so the removed rows are kept nowhere. *)
Theorem cargar_y_procesar_datos_todo_ruido :
  map pregunta_limpia (rows (df_con_pregunta_limpia ejemplo_todo_ruido))
    = [lit "ok"; lit "si"; []] /\
  filter no_es_ruido (rows (df_con_pregunta_limpia ejemplo_todo_ruido)) = [] /\
  cargar_y_procesar_datos ejemplo_todo_ruido = Raises AttributeError /\
  forall df_original df_limpio,
    cargar_y_procesar_datos ejemplo_todo_ruido <> Returns (df_original, df_limpio).
Proof.
  split; [vm_compute; reflexivity | split; [vm_compute; reflexivity |]].
  assert (E : cargar_y_procesar_datos ejemplo_todo_ruido = Raises AttributeError)
    by (vm_compute; reflexivity).
  split; [exact E|]. intros df_original df_limpio H. rewrite E in H. discriminate.
Qed.

(** The claim that the filter reads the conversation lengths from the
    original dataset fails on the three-row upload in which
    conversation A loses its second turn to the noise filter: with the
    minimum of 2 turns, which the slider offers, the code drops the
    remaining row of A, whose conversation has 2 turns in the original
    dataset. *)
Lemma aplicar_filtros_no_usa_dataset_original :
  exists df_original df_limpio,
    cargar_y_procesar_datos ejemplo_dos_conversaciones
      = Returns (df_original, df_limpio) /\
    slider_admite df_limpio 2 = true /\
    exploracion_datos ejemplo_dos_conversaciones TODAS TODAS 2
      = Returns (aplicar_filtros df_limpio TODAS TODAS 2) /\
    map (fun r => (e_conversation r, e_turn r))
        (rows (aplicar_filtros df_limpio TODAS TODAS 2))
      = [(lit "B", 2%Z)] /\
    map (fun r => (e_conversation r, e_turn r))
        (filtrar_con_dataset_original df_limpio df_original TODAS TODAS 2)
      = [(lit "A", 1%Z); (lit "B", 2%Z)] /\
    rows (aplicar_filtros df_limpio TODAS TODAS 2)
      <> filtrar_con_dataset_original df_limpio df_original TODAS TODAS 2.
Proof.
  destruct (cargar_y_procesar_datos ejemplo_dos_conversaciones)
    as [[df_original df_limpio]|e] eqn:E; [|vm_compute in E; discriminate].
  exists df_original, df_limpio.
  vm_compute in E. injection E as <- <-.
  split; [reflexivity|].
  repeat split; try (vm_compute; reflexivity).
  intros H. apply (f_equal (@List.length _)) in H. vm_compute in H. discriminate.
Qed.

End EjemploFiltro.

(* ================================================================== *)
(** * The metrics *)
(* ================================================================== *)

(** C6.  On a dataset without rows the aggregator returns the empty
    dict, and the empty dict is returned for no other dataset. *)
Theorem calcular_metricas_conversacion_vacio (df : DataFrame CleanRow) :
  calcular_metricas_conversacion df = [] <-> rows df = [].
Proof.
  unfold calcular_metricas_conversacion, empty.
  destruct (rows df) as [|r rs]; split; (reflexivity || discriminate).
Qed.

(* ================================================================== *)
(** * The normaliser *)
(* ================================================================== *)

Section NormalizerProperties.
Context {U : Unicode}.

Lemma lstrip_empieza (s : str) : empieza_sin_espacio (lstrip s).
Proof.
induction s as [|c t IH]; simpl; [exact I|].
destruct (is_space c) eqn:E; [exact IH | simpl; exact E].
Qed.

Lemma lstrip_fix (s : str) : empieza_sin_espacio s -> lstrip s = s.
Proof. destruct s as [|c t]; simpl; [reflexivity | intros ->; reflexivity]. Qed.

Lemma rstrip_cabeza (s : str) (d : char) (t' : str) :
rstrip s = d :: t' -> exists t, s = d :: t.
Proof.
destruct s as [|c t]; simpl; [discriminate|].
destruct (rstrip t) as [|x l].
- destruct (is_space c); [discriminate|].
  intros E. injection E as <- <-. exists t. reflexivity.
- intros E. injection E as <- <-. exists t. reflexivity.
Qed.

Lemma rstrip_empieza (s : str) :
empieza_sin_espacio s -> empieza_sin_espacio (rstrip s).
Proof.
intros H. destruct (rstrip s) as [|d t'] eqn:E; [exact I|].
apply rstrip_cabeza in E. destruct E as (t & ->). exact H.
Qed.

Lemma rstrip_idem (s : str) : rstrip (rstrip s) = rstrip s.
Proof.
induction s as [|c t IH]; simpl; [reflexivity|].
destruct (rstrip t) as [|x l] eqn:E.
- destruct (is_space c) eqn:Ec; simpl; [reflexivity|]. rewrite Ec. reflexivity.
- simpl. simpl in IH. destruct (rstrip l) as [|y l'] eqn:El.
  + destruct (is_space x); [discriminate|].
    injection IH as <-. reflexivity.
  + rewrite IH. reflexivity.
Qed.

Lemma strip_idem (s : str) : strip (strip s) = strip s.
Proof.
unfold strip.
rewrite (lstrip_fix (rstrip (lstrip s)))
  by (apply rstrip_empieza, lstrip_empieza).
apply rstrip_idem.
Qed.

Lemma espacios_simples_cola (c : char) (t : str) :
espacios_simples (c :: t) -> espacios_simples t.
Proof. intros [_ H]. exact H. Qed.

Lemma lstrip_espacios_simples (s : str) :
espacios_simples s -> espacios_simples (lstrip s).
Proof.
induction s as [|c t IH]; [auto|]. intros H. cbn [lstrip].
destruct (is_space c); [apply IH; exact (espacios_simples_cola H) | exact H].
Qed.

Lemma rstrip_espacios_simples (s : str) :
espacios_simples s -> espacios_simples (rstrip s).
Proof.
induction s as [|c t IH]; [auto|]. intros [Hc Ht].
specialize (IH Ht). cbn [rstrip].
destruct (rstrip t) as [|x l] eqn:E.
- destruct (is_space c) eqn:Ec; simpl; [exact I|].
  split; [congruence | exact I].
- apply rstrip_cabeza in E. destruct E as (t0 & ->).
  split; [exact Hc | exact IH].
Qed.

Lemma strip_espacios_simples (s : str) :
espacios_simples s -> espacios_simples (strip s).
Proof.
intros H. apply rstrip_espacios_simples, lstrip_espacios_simples, H.
Qed.

Lemma sub_espacios_from_simples (s : str) (in_run : bool) :
espacios_simples (sub_espacios_from in_run s) /\
(in_run = true -> empieza_sin_espacio (sub_espacios_from in_run s)).
Proof.
revert in_run. induction s as [|c t IH]; intros in_run; simpl.
- split; [exact I | intros _; exact I].
- destruct (is_space c) eqn:Ec.
  + destruct in_run.
    * apply IH.
    * split; [|discriminate]. simpl. destruct (IH true) as [Hs Hh].
      split; [|exact Hs]. intros _. split; [reflexivity|]. apply Hh. reflexivity.
  + destruct (IH false) as [Hs _]. split.
    * simpl. split; [congruence | exact Hs].
    * intros _. simpl. exact Ec.
Qed.

Lemma sub_espacios_from_fix (s : str) (in_run : bool) :
espacios_simples s ->
(in_run = true -> empieza_sin_espacio s) ->
sub_espacios_from in_run s = s.
Proof.
revert in_run. induction s as [|c t IH]; intros in_run; simpl; [reflexivity|].
intros [Hc Ht] Hrun.
destruct (is_space c) eqn:Ec.
- destruct (Hc eq_refl) as [-> Hnext].
  destruct in_run; [specialize (Hrun eq_refl); congruence|].
  f_equal. apply IH; [exact Ht | intros _; exact Hnext].
- f_equal. apply IH; [exact Ht | discriminate].
Qed.

Section Preserva.
Variable P : char -> Prop.

Lemma lstrip_Forall (s : str) : Forall P s -> Forall P (lstrip s).
Proof.
induction 1 as [|c t Hc Ht IH]; simpl; [constructor|].
destruct (is_space c); [exact IH | constructor; assumption].
Qed.

Lemma rstrip_Forall (s : str) : Forall P s -> Forall P (rstrip s).
Proof.
induction 1 as [|c t Hc Ht IH]; simpl; [constructor|].
destruct (rstrip t) as [|x l].
- destruct (is_space c); constructor; auto.
- constructor; assumption.
Qed.

Lemma strip_Forall (s : str) : Forall P s -> Forall P (strip s).
Proof. intros H. apply rstrip_Forall, lstrip_Forall, H. Qed.

Lemma sub_espacios_from_Forall (s : str) (in_run : bool) :
P SPACE -> Forall P s -> Forall P (sub_espacios_from in_run s).
Proof.
intros Hsp H. revert in_run.
induction H as [|c t Hc Ht IH]; intros in_run; simpl; [constructor|].
destruct (is_space c); [destruct in_run|]; try constructor; auto.
Qed.

Lemma sub_no_permitidos_Forall (s : str) :
P SPACE -> Forall P s -> Forall P (sub_no_permitidos s).
Proof.
intros Hsp H. unfold sub_no_permitidos.
induction H as [|c t Hc Ht IH]; simpl; constructor; [|exact IH].
destruct (kept c); assumption.
Qed.

End Preserva.

Lemma sub_no_permitidos_kept (s : str) :
kept SPACE = true ->
Forall (fun c => kept c = true) (sub_no_permitidos s).
Proof.
intros Hsp. unfold sub_no_permitidos.
induction s as [|c t IH]; simpl; constructor; [|exact IH].
destruct (kept c) eqn:E; assumption.
Qed.

Lemma sub_no_permitidos_fix (s : str) :
Forall (fun c => kept c = true) s -> sub_no_permitidos s = s.
Proof.
unfold sub_no_permitidos.
induction 1 as [|c t Hc Ht IH]; simpl; [reflexivity|].
rewrite Hc, IH. reflexivity.
Qed.

(** C7.  The normaliser is idempotent, for Unicode tables in which
    lower-casing leaves the characters of a lower-cased string alone and
    U+0020 is a whitespace character that lower-casing leaves alone. *)
Theorem limpiar_texto_idempotente {L : UnicodeLowerStable U} (x : cell) :
limpiar_texto (Text (limpiar_texto x)) = limpiar_texto x.
Proof.
assert (Hkept : kept SPACE = true).
{ unfold kept. rewrite space_is_space, !orb_true_r. reflexivity. }
assert (Hfix : forall s,
          Forall (fun c => lower_stable c = true) s ->
          Forall (fun c => kept c = true) s ->
          espacios_simples s ->
          strip s = s ->
          limpiar_str s = s).
{ intros s Hst Hk Hss Hstrip. unfold limpiar_str.
  rewrite (lower_stable_fix Hst), Hstrip, (sub_no_permitidos_fix Hk).
  unfold sub_espacios.
  rewrite (@sub_espacios_from_fix s false Hss) by discriminate.
  exact Hstrip. }
destruct x as [|s]; cbn [limpiar_texto].
- apply Hfix; constructor.
- apply Hfix; unfold limpiar_str.
  + apply strip_Forall, sub_espacios_from_Forall;
      [apply lower_stable_space|].
    apply sub_no_permitidos_Forall; [apply lower_stable_space|].
    apply strip_Forall, lower_stable_out.
  + apply strip_Forall, sub_espacios_from_Forall; [exact Hkept|].
    apply sub_no_permitidos_kept, Hkept.
  + apply strip_espacios_simples, sub_espacios_from_simples.
  + apply strip_idem.
Qed.

End NormalizerProperties.

(** The tables of [Latin1] have the stability that idempotence needs. *)
Lemma Latin1_tolower_idem (c : char) :
  Latin1.tolower (Latin1.tolower c) = Latin1.tolower c.
Proof.
  unfold Latin1.tolower.
  destruct (Latin1.isupper c) eqn:E; [|rewrite E; reflexivity].
  assert (E' : Latin1.isupper (c + 32)%N = false); [|rewrite E'; reflexivity].
  unfold Latin1.isupper, Latin1.in_range in *.
  rewrite !orb_true_iff, !andb_true_iff, !N.leb_le in E.
  rewrite !orb_false_iff, !andb_false_iff, !N.leb_gt. lia.
Qed.

#[export] Instance Latin1_lower_stable : UnicodeLowerStable Latin1.tables.
Proof.
  refine {| lower_stable := fun c => N.eqb (Latin1.tolower c) c |}.
  - intros s. simpl. unfold Latin1.lower. apply Forall_forall.
    intros c Hin. apply in_map_iff in Hin. destruct Hin as (c0 & <- & _).
    apply N.eqb_eq, Latin1_tolower_idem.
  - intros s H. simpl. unfold Latin1.lower.
    induction H as [|c t Hc Ht IH]; simpl; [reflexivity|].
    apply N.eqb_eq in Hc. rewrite Hc, IH. reflexivity.
  - reflexivity.
  - reflexivity.
Defined.

Section EjemploNormalizador.
Local Existing Instance Latin1.tables.

Lemma limpiar_texto_idempotente_witness :
limpiar_texto ejemplo_texto = lit "hola mundo que_tal" /\
limpiar_texto (Text (limpiar_texto ejemplo_texto)) = limpiar_texto ejemplo_texto.
Proof.
split; [reflexivity|].
exact (limpiar_texto_idempotente (L := Latin1_lower_stable) ejemplo_texto).
Defined.

End EjemploNormalizador.

(* ================================================================== *)
(** * The most frequent questions *)
(* ================================================================== *)

Lemma In_firstn {A} (n : nat) (l : list A) (x : A) :
  In x (firstn n l) -> In x l.
Proof.
  intros H. rewrite <- (firstn_skipn n l). apply in_or_app. left. exact H.
Qed.

Lemma contar_valores_spec (l : list str) (q : str) (n : nat) :
  In (q, n) (contar_valores l) <->
  n = List.length (filter (fun v => str_eqb v q) l) /\ (0 < n)%nat.
Proof.
  unfold contar_valores.
  destruct (acumulados (fun v : str => v) (fun _ => 1%nat) (fun n _ => S n) l)
    as [Hnd Hb].
  cbv zeta in Hnd, Hb.
  rewrite (In_buscar _ q n Hnd), Hb. unfold agregado.
  destruct (filter (fun r => str_eqb r q) l) as [|v rest]; simpl.
  - split; [discriminate | intros [-> H]; lia].
  - assert (E : forall (xs : list str) (m : nat),
              fold_left (fun n _ => S n) xs m = (List.length xs + m)%nat).
    { induction xs as [|x xs IH]; intros m; simpl; [reflexivity|].
      rewrite IH. lia. }
    rewrite E. split.
    + intros H. injection H as <-. lia.
    + intros [-> _]. f_equal. lia.
Qed.

Section TopPreguntasProperties.
Context {U : Unicode} {P : Pandas} {PS : PandasSort P}.

(** X27.  What holds of the ranking whatever the library does with equal
    counts: at most [n] questions, each with the number of counted rows
    that carry it, in non-increasing order of that number. *)
Lemma obtener_top_preguntas_frecuencias
    (df : DataFrame EnrichedRow) (n : nat) (filtrar_saludos : bool) :
  let top := obtener_top_preguntas df n filtrar_saludos in
  (List.length top <= n)%nat /\
  (forall q c, In (q, c) top ->
     c = List.length (filter (fun r => str_eqb (pregunta_limpia (clean r)) q)
                             (filas_faqs df filtrar_saludos))
     /\ (0 < c)%nat) /\
  StronglySorted (fun a b => (snd b <= snd a)%nat) top.
Proof.
  unfold obtener_top_preguntas, value_counts. cbv zeta.
  set (valores := map (fun r => pregunta_limpia (clean r))
                      (filas_faqs df filtrar_saludos)).
  split; [apply firstn_le_length | split].
  - intros q c Hin. apply In_firstn in Hin.
    apply (Permutation_in _ (sort_values_perm (contar_valores valores))) in Hin.
    apply contar_valores_spec in Hin. destruct Hin as [-> Hpos].
    split; [|exact Hpos]. subst valores.
    clear. induction (filas_faqs df filtrar_saludos) as [|r rs IH]; simpl;
      [reflexivity|].
    destruct (str_eqb (pregunta_limpia (clean r)) q); simpl; rewrite IH; reflexivity.
  - pose proof (sort_values_sorted (contar_valores valores)) as Hs.
    revert n. induction Hs as [|a l Hl IH Ha]; intros n.
    + rewrite firstn_nil. constructor.
    + destruct n as [|n]; simpl; constructor; [apply IH|].
      apply Forall_forall. intros b Hb. apply In_firstn in Hb.
      rewrite Forall_forall in Ha. auto.
Qed.

End TopPreguntasProperties.

(** The contract of the library's sort can be met, and it leaves the
    order of equal counts open. *)
Lemma insertar_desc_perm (b : bool) (g : str * nat) (l : list (str * nat)) :
  Permutation (insertar_desc b g l) (g :: l).
Proof.
  induction l as [|h t IH]; simpl; [apply Permutation_refl|].
  destruct (if b then (snd h <=? snd g)%nat else (snd h <? snd g)%nat).
  - apply Permutation_refl.
  - eapply Permutation_trans; [apply perm_skip, IH | apply perm_swap].
Qed.

Lemma insertar_desc_sorted (b : bool) (g : str * nat) (l : list (str * nat)) :
  StronglySorted (fun x y => (snd y <= snd x)%nat) l ->
  StronglySorted (fun x y => (snd y <= snd x)%nat) (insertar_desc b g l).
Proof.
  induction 1 as [|h t Ht IH Hh]; simpl; [repeat constructor|].
  destruct (if b then (snd h <=? snd g)%nat else (snd h <? snd g)%nat) eqn:E.
  - assert (Hle : (snd h <= snd g)%nat).
    { destruct b; [apply Nat.leb_le in E | apply Nat.ltb_lt in E]; lia. }
    constructor; [constructor; assumption|].
    constructor; [exact Hle|].
    rewrite Forall_forall in *. intros y Hy. specialize (Hh y Hy). lia.
  - assert (Hle : (snd g <= snd h)%nat).
    { destruct b; [apply Nat.leb_gt in E | apply Nat.ltb_ge in E]; lia. }
    constructor; [exact IH|].
    rewrite Forall_forall in *. intros y Hy.
    apply (Permutation_in _ (insertar_desc_perm b g t)) in Hy.
    destruct Hy as [<- | Hy]; auto.
Qed.

Lemma ordenar_desc_PandasSort (b : bool) :
  PandasSort {| sort_values_desc := ordenar_desc b |}.
Proof.
  split; simpl; intros l; unfold ordenar_desc.
  - induction l as [|g l IH]; simpl; [constructor|].
    eapply Permutation_trans; [apply insertar_desc_perm | apply perm_skip, IH].
  - induction l as [|g l IH]; simpl; [constructor|].
    apply insertar_desc_sorted, IH.
Qed.

Lemma sort_values_no_fija_los_empates :
  exists l : list str,
    value_counts (P := {| sort_values_desc := ordenar_desc true |}) l
    <> value_counts (P := {| sort_values_desc := ordenar_desc false |}) l.
Proof.
  exists [lit "precio del filtro"; lit "horario de atencion"].
  vm_compute. discriminate.
Qed.

(* ================================================================== *)
(** * Further properties of the classifier *)
(* ================================================================== *)

Lemma contains_extension (k p a b : str) :
  contains k p = true -> contains k (a ++ p ++ b) = true.
Proof.
  rewrite !contains_spec. intros (x & y & ->).
  exists (a ++ x), (y ++ b). rewrite <- !app_assoc. reflexivity.
Qed.

Lemma filter_length_mono {A} (f g : A -> bool) (l : list A) :
  (forall x, f x = true -> g x = true) ->
  (List.length (filter f l) <= List.length (filter g l))%nat.
Proof.
  intros H. induction l as [|x l IH]; simpl; [lia|].
  destruct (f x) eqn:Ef.
  - rewrite (H x Ef). simpl. lia.
  - destruct (g x); simpl; lia.
Qed.

Lemma cociente_le_1 (m n : nat) : (m <= n)%nat -> (cociente m n <= 1)%Q.
Proof.
  intros H. unfold cociente, Qle. simpl.
  destruct n as [|n].
  - assert (m = 0%nat) by lia. subst. simpl. lia.
  - rewrite Zpos_of_nat by lia. lia.
Qed.

Lemma cociente_mono (m m' n : nat) :
  (m <= m')%nat -> (cociente m n <= cociente m' n)%Q.
Proof. intros H. unfold cociente, Qle. simpl. nia. Qed.

(** The second loop variable at the end of the scan: it bounds the score
    of every matching entry, and is 0 or the score of one of them. *)
Lemma mejor_score_es_maximo (pregunta : str) :
  (forall e, In e entradas -> (0 < matches_de pregunta e)%nat ->
             (score_de pregunta e <= snd (mejor_coincidencia pregunta))%Q) /\
  (snd (mejor_coincidencia pregunta) = 0%Q \/
   exists e, In e entradas /\ (0 < matches_de pregunta e)%nat /\
             snd (mejor_coincidencia pregunta) = score_de pregunta e).
Proof.
  pose proof (invariante_mejor_coincidencia pregunta) as Inv.
  unfold invariante in Inv.
  destruct (fst (mejor_coincidencia pregunta)) as [[[c s] q]|].
  - destruct Inv as (-> & i & kws & Hn & Hpos & -> & Hle & _). split.
    + intros e Hin Hm. apply In_nth_error in Hin. destruct Hin as [j Hj]. eauto.
    + right. exists (c, s, kws). split; [eapply nth_error_In; eauto | auto].
  - destruct Inv as (-> & Hnone). split; [|left; reflexivity].
    intros e Hin Hm. apply Hnone in Hin. lia.
Qed.

Section ClassifierFurther.
Context {U : Unicode}.

(** Without a valid intent the confidence is the second loop variable. *)
Lemma confianza_sin_intent (row : Series) :
  intent_valido row = None ->
  confianza (clasificar_consulta row) = snd (mejor_coincidencia (pregunta_de row)).
Proof.
  intros Hi. unfold confianza, clasificar_consulta. rewrite Hi.
  pose proof (invariante_mejor_coincidencia (pregunta_de row)) as Inv.
  unfold invariante in Inv.
  destruct (fst (mejor_coincidencia (pregunta_de row))) as [[[c s] q]|].
  - destruct Inv as (-> & _). reflexivity.
  - destruct Inv as (-> & _). reflexivity.
Qed.

(** X1.  The confidence of every classification lies between 0 and 1. *)
Theorem confianza_entre_0_y_1 (row : Series) :
  (0 <= confianza (clasificar_consulta row) <= 1)%Q.
Proof.
  destruct (intent_valido row) as [i|] eqn:Hi.
  - unfold confianza, clasificar_consulta. rewrite Hi. simpl.
    split; unfold Qle; simpl; lia.
  - rewrite (confianza_sin_intent row Hi).
    destruct (mejor_score_es_maximo (pregunta_de row)) as [_ [-> | (e & _ & Hpos & ->)]].
    + split; unfold Qle; simpl; lia.
    + split.
      * apply Qlt_le_weak. apply cociente_positivo. exact Hpos.
      * apply cociente_le_1. apply contar_matches_le_len.
Qed.

(** X2.  The subcategory "Por Intent" marks exactly the rows classified
    by their intent: no subcategory of the taxonomy and no fallback
    carries that name. *)
Theorem por_intent_ssi_intent_valido (row : Series) :
  snd (fst (clasificar_consulta row)) = POR_INTENT <-> intent_valido row <> None.
Proof.
  assert (Htax : forall e, In e entradas -> snd (fst e) <> POR_INTENT).
  { assert (Hb : forallb (fun e => negb (str_eqb (snd (fst e)) POR_INTENT)) entradas
                 = true) by (vm_compute; reflexivity).
    intros e Hin. rewrite forallb_forall in Hb. specialize (Hb e Hin).
    apply negb_true_iff, str_eqb_neq in Hb. exact Hb. }
  destruct (clasificar_consulta_casos row)
    as [(i & Hi & E) | [(Hi & e & Hin & _ & E) | ((Hi & _) & E)]];
    rewrite E, Hi; cbn [fst snd].
  - split; [discriminate | reflexivity].
  - split; [intros H; exfalso; exact (Htax e Hin H) | congruence].
  - split; [intros H; vm_compute in H; discriminate | congruence].
Qed.

(** X3.  Without a valid intent the category and subcategory returned
    are always a pair of the taxonomy, the fallback included. *)
Theorem sin_intent_par_de_la_taxonomia (row : Series) :
  intent_valido row = None ->
  exists kws,
    In (fst (fst (clasificar_consulta row)),
        snd (fst (clasificar_consulta row)), kws) entradas.
Proof.
  intros Hi.
  destruct (clasificar_consulta_casos row)
    as [(i & Hi' & _) | [(_ & e & Hin & _ & E) | (_ & E)]].
  - congruence.
  - rewrite E. cbn [fst snd]. destruct e as [[c s] kws]. exists kws. exact Hin.
  - rewrite E. cbn [fst snd].
    exists [lit "otros"; lit "miscelaneos"; lit "sin categoria"].
    apply (nth_error_In entradas 19). reflexivity.
Qed.

(** X4.  Without a valid intent, a longer text never scores lower: when
    the normalised utterance of one row occurs inside that of another, the
    confidence of the first is at most that of the second. *)
Theorem confianza_monotona (row row' : Series) :
  intent_valido row = None ->
  intent_valido row' = None ->
  contains (pregunta_de row) (pregunta_de row') = true ->
  (confianza (clasificar_consulta row) <= confianza (clasificar_consulta row'))%Q.
Proof.
  intros Hi Hi' Hsub.
  rewrite (confianza_sin_intent row Hi), (confianza_sin_intent row' Hi').
  set (p := pregunta_de row) in *. set (p' := pregunta_de row') in *.
  apply contains_spec in Hsub. destruct Hsub as (a & b & Hp').
  assert (Hm : forall e, (matches_de p e <= matches_de p' e)%nat).
  { intros e. unfold matches_de, contar_matches. apply filter_length_mono.
    intros k Hk. rewrite Hp'. apply contains_extension. exact Hk. }
  destruct (mejor_score_es_maximo p) as [_ [-> | (e & Hin & Hpos & ->)]].
  - destruct (mejor_score_es_maximo p') as [_ [-> | (e & _ & Hpos & ->)]].
    + apply Qle_refl.
    + apply Qlt_le_weak. apply cociente_positivo. exact Hpos.
  - destruct (mejor_score_es_maximo p') as [Hmax _].
    eapply Qle_trans; [|apply (Hmax e Hin)].
    + apply cociente_mono. apply Hm.
    + specialize (Hm e). lia.
Qed.

End ClassifierFurther.

(* ================================================================== *)
(** * Further properties of the normaliser and of the greeting test *)
(* ================================================================== *)

Section NormalizerFurther.
Context {U : Unicode}.

Lemma rstrip_termina (s : str) : termina_sin_espacio (rstrip s).
Proof.
  unfold termina_sin_espacio.
  induction s as [|c t IH]; simpl; [exact I|].
  destruct (rstrip t) as [|x l] eqn:E.
  - destruct (is_space c) eqn:Ec; simpl; [exact I | exact Ec].
  - cbn [rev] in *. destruct (rev l ++ [x]) as [|d r] eqn:Er.
    + destruct (rev l); discriminate.
    + simpl. exact IH.
Qed.

Lemma rstrip_fix (s : str) : termina_sin_espacio s -> rstrip s = s.
Proof.
  unfold termina_sin_espacio.
  induction s as [|c t IH]; simpl; [reflexivity|].
  intros H. destruct t as [|x l].
  - simpl in *. rewrite H. reflexivity.
  - assert (Ht : match rev (x :: l) with [] => True | d :: _ => is_space d = false end).
    { destruct (rev (x :: l)) as [|d r] eqn:Er; [exact I|]. simpl in H. exact H. }
    rewrite (IH Ht). reflexivity.
Qed.

Lemma limpiar_str_forma_normal (s : str) :
  is_space SPACE = true -> forma_normal (limpiar_str s).
Proof.
  intros Hsp. unfold forma_normal, limpiar_str.
  assert (Hkept : kept SPACE = true).
  { unfold kept. rewrite Hsp, !orb_true_r. reflexivity. }
  split; [|split; [|split]].
  - apply strip_espacios_simples, sub_espacios_from_simples.
  - apply rstrip_empieza, lstrip_empieza.
  - apply rstrip_termina.
  - apply strip_Forall, sub_espacios_from_Forall; [exact Hkept|].
    apply sub_no_permitidos_kept, Hkept.
Qed.

Lemma limpiar_str_fijo (s : str) :
  forma_normal s -> str_lower s = s -> limpiar_str s = s.
Proof.
  intros (Hss & Hini & Hfin & Hk) Hlow. unfold limpiar_str.
  assert (Hstrip : strip s = s).
  { unfold strip. rewrite (lstrip_fix s Hini). apply rstrip_fix, Hfin. }
  rewrite Hlow, Hstrip, (sub_no_permitidos_fix Hk).
  unfold sub_espacios.
  rewrite (@sub_espacios_from_fix _ s false Hss) by discriminate.
  exact Hstrip.
Qed.

(** X5.  A normalised text has no whitespace at either end, has
    whitespace only as single U+0020 characters, and consists of word
    characters, U+0020 and the seven accented letters only. *)
Theorem limpiar_texto_forma_normal (x : cell) :
  is_space SPACE = true -> forma_normal (limpiar_texto x).
Proof.
  intros Hsp. destruct x as [|s]; cbn [limpiar_texto].
  - repeat split; constructor.
  - apply limpiar_str_forma_normal, Hsp.
Qed.

(** X6.  The texts that the normaliser returns unchanged are exactly the
    texts in normal form that lower-casing leaves alone. *)
Theorem limpiar_texto_puntos_fijos {L : UnicodeLowerStable U} (s : str) :
  limpiar_texto (Text s) = s <-> forma_normal s /\ str_lower s = s.
Proof.
  cbn [limpiar_texto]. split.
  - intros E. split.
    + rewrite <- E. apply limpiar_str_forma_normal, space_is_space.
    + apply lower_stable_fix. rewrite <- E. unfold limpiar_str.
      apply strip_Forall, sub_espacios_from_Forall; [apply lower_stable_space|].
      apply sub_no_permitidos_Forall; [apply lower_stable_space|].
      apply strip_Forall, lower_stable_out.
  - intros [Hn Hl]. apply limpiar_str_fijo; assumption.
Qed.





End NormalizerFurther.

(* ================================================================== *)
(** * Further properties of the loader and of the filters *)
(* ================================================================== *)

(** X8.  The test on the length makes every noise word of one or two
    characters redundant: a row passes the noise filter exactly when its
    normalised utterance is longer than 2 characters and is none of
    "que", "una", "los", "las", "con", "para", "por". *)
Theorem no_es_ruido_palabras_largas (r : CleanRow) :
  no_es_ruido r = true <->
  (2 < List.length (pregunta_limpia r))%nat /\
  ~ In (pregunta_limpia r) PALABRAS_RUIDO_LARGAS.
Proof.
  rewrite no_es_ruido_spec.
  set (p := pregunta_limpia r).
  assert (H1 : In p PALABRAS_RUIDO ->
               (List.length p <= 2)%nat \/ In p PALABRAS_RUIDO_LARGAS).
  { intros H. simpl in H.
    repeat (destruct H as [<- | H];
            [first [ left; simpl; lia | right; simpl; tauto ] |]).
    destruct H. }
  assert (H2 : In p PALABRAS_RUIDO_LARGAS -> In p PALABRAS_RUIDO).
  { intros H. simpl in H.
    repeat (destruct H as [<- | H]; [simpl; tauto |]). destruct H. }
  split.
  - intros [Hno Hlen]. split; [exact Hlen | auto].
  - intros [Hlen Hno]. split; [|exact Hlen].
    intros Hin. destruct (H1 Hin) as [Hle | Hl]; [lia | auto].
Qed.

Section LoaderFurther.
Context {U : Unicode}.

(** X9.  Whenever the loader returns, the enriched dataset has at least
    one row, the original dataset has as many rows as the upload, and
    every enriched row comes from an uploaded row whose utterance is a
    text, never a missing value. *)
Theorem cargar_y_procesar_datos_filas_con_texto
    (entrada : DataFrame RawRow)
    (df_original : DataFrame CleanRow) (df_limpio : DataFrame EnrichedRow) :
  cargar_y_procesar_datos entrada = Returns (df_original, df_limpio) ->
  rows df_limpio <> [] /\
  List.length (rows df_original) = List.length (rows entrada) /\
  forall e, In e (rows df_limpio) ->
    In (raw (clean e)) (rows entrada) /\
    exists s, user_utterances (raw (clean e)) = Text s.
Proof.
  unfold cargar_y_procesar_datos. cbn [rows]. fold con_pregunta_limpia.
  destruct (filter no_es_ruido (map con_pregunta_limpia (rows entrada)))
    as [|x l] eqn:E; [discriminate|].
  intros H. injection H as <- <-.
  split; [simpl; discriminate | split; [cbn [rows]; apply length_map|]].
  intros e He.
  change (In e (map (clasificar_fila (columns entrada)) (x :: l))) in He.
  apply in_map_iff in He. destruct He as (r & <- & Hr).
  rewrite clean_clasificar_fila.
  rewrite <- E in Hr. apply filter_In in Hr. destruct Hr as [Hr Hn].
  apply in_map_iff in Hr. destruct Hr as (r0 & <- & Hr0).
  split; [exact Hr0|]. cbn [raw con_pregunta_limpia].
  destruct (user_utterances r0) as [|s] eqn:Eu; [|exists s; reflexivity].
  exfalso. unfold no_es_ruido, con_pregunta_limpia in Hn. cbn [pregunta_limpia] in Hn.
  rewrite Eu in Hn. vm_compute in Hn. discriminate.
Qed.

End LoaderFurther.

Lemma filter_todos {A} (f : A -> bool) (l : list A) :
  (forall x, In x l -> f x = true) -> filter f l = l.
Proof.
  induction l as [|x l IH]; intros H; simpl; [reflexivity|].
  rewrite (H x (or_introl eq_refl)), IH; [reflexivity|].
  intros y Hy. apply H. right. exact Hy.
Qed.

(** A conversation is among [conversaciones_validas] exactly when one of
    its rows reaches the minimum. *)
Lemma conversacion_alcanza {R} (conv : R -> str) (turn : R -> Z)
    (rs : list R) (turnos_min : Z) (k : str) :
  str_in k (map fst (filter (fun g => (turnos_min <=? snd g)%Z)
                            (max_turn_position conv turn rs))) = true
  <-> exists r, In r rs /\ conv r = k /\ (turnos_min <= turn r)%Z.
Proof.
  rewrite conversacion_valida. setoid_rewrite max_turn_position_spec. split.
  - intros (m & [(r & Hin & Hk & Hm) _] & Hle). exists r. repeat split; auto. lia.
  - intros (r & Hin & Hk & Hle).
    destruct (agregado conv turn (fun m r => Z.max m (turn r)) k rs) as [m|] eqn:E.
    + assert (Hmax : max_turnos_en conv turn rs k m).
      { apply max_turn_position_spec. apply In_groupby. exact E. }
      exists m. split; [exact Hmax|].
      destruct Hmax as [_ Hall]. specialize (Hall r Hin Hk). lia.
    + exfalso. unfold agregado in E.
      assert (Hf : In r (filter (fun r => str_eqb (conv r) k) rs))
        by (apply filter_In; split; [exact Hin | apply str_eqb_eq; exact Hk]).
      destruct (filter (fun r => str_eqb (conv r) k) rs); [destruct Hf | discriminate].
Qed.

Lemma aplicar_filtros_filter (df : DataFrame EnrichedRow)
    (categoria_sel subcategoria_sel : str) (turnos_min : Z) :
  rows (aplicar_filtros df categoria_sel subcategoria_sel turnos_min)
  = filter (pasa_filtros df categoria_sel subcategoria_sel turnos_min) (rows df).
Proof.
  unfold aplicar_filtros, pasa_filtros. cbn [rows].
  rewrite <- !filter_filter. f_equal.
  destruct (str_eqb categoria_sel TODAS); simpl;
    destruct (str_eqb subcategoria_sel TODAS); simpl;
    rewrite ?filter_true; reflexivity.
Qed.

Lemma pasa_filtros_spec (df : DataFrame EnrichedRow)
    (categoria_sel subcategoria_sel : str) (turnos_min : Z) (r : EnrichedRow) :
  pasa_filtros df categoria_sel subcategoria_sel turnos_min r = true <->
  (categoria_sel = TODAS \/ categoria r = categoria_sel) /\
  (subcategoria_sel = TODAS \/ subcategoria r = subcategoria_sel) /\
  exists r', In r' (rows df) /\ e_conversation r' = e_conversation r /\
             (turnos_min <= e_turn r')%Z.
Proof.
  unfold pasa_filtros.
  rewrite !andb_true_iff, !orb_true_iff, !str_eqb_eq, conversacion_alcanza.
  tauto.
Qed.

Lemma In_aplicar_filtros (df : DataFrame EnrichedRow)
    (categoria_sel subcategoria_sel : str) (turnos_min : Z) (r : EnrichedRow) :
  In r (rows (aplicar_filtros df categoria_sel subcategoria_sel turnos_min)) <->
  In r (rows df) /\
  (categoria_sel = TODAS \/ categoria r = categoria_sel) /\
  (subcategoria_sel = TODAS \/ subcategoria r = subcategoria_sel) /\
  exists r', In r' (rows df) /\ e_conversation r' = e_conversation r /\
             (turnos_min <= e_turn r')%Z.
Proof. rewrite aplicar_filtros_filter, filter_In, pasa_filtros_spec. reflexivity. Qed.

(** X10.  Without a category or subcategory selection the filter works
    on whole conversations: when it keeps one row of a conversation it
    keeps every row of that conversation. *)
Theorem aplicar_filtros_conversaciones_enteras
    (df : DataFrame EnrichedRow) (turnos_min : Z) (r r' : EnrichedRow) :
  In r (rows (aplicar_filtros df TODAS TODAS turnos_min)) ->
  In r' (rows df) ->
  e_conversation r' = e_conversation r ->
  In r' (rows (aplicar_filtros df TODAS TODAS turnos_min)).
Proof.
  rewrite !In_aplicar_filtros.
  intros (_ & _ & _ & r0 & Hin0 & Hk0 & Hle) Hin' Hk.
  repeat split; auto. exists r0. repeat split; auto. congruence.
Qed.

(** X11.  Raising the minimum number of turns never adds rows: every row
    kept with the larger minimum is kept with the smaller one. *)
Theorem aplicar_filtros_monotono
    (df : DataFrame EnrichedRow) (categoria_sel subcategoria_sel : str)
    (t1 t2 : Z) (r : EnrichedRow) :
  (t1 <= t2)%Z ->
  In r (rows (aplicar_filtros df categoria_sel subcategoria_sel t2)) ->
  In r (rows (aplicar_filtros df categoria_sel subcategoria_sel t1)).
Proof.
  rewrite !In_aplicar_filtros.
  intros Hle (Hin & Hc & Hs & r' & Hin' & Hk & Ht).
  repeat split; auto. exists r'. repeat split; auto. lia.
Qed.

(** X12.  Without a category or subcategory selection, filtering the
    filtered frame again with the same minimum changes nothing. *)
Theorem aplicar_filtros_idempotente_sin_categoria
    (df : DataFrame EnrichedRow) (turnos_min : Z) :
  aplicar_filtros (aplicar_filtros df TODAS TODAS turnos_min) TODAS TODAS turnos_min
  = aplicar_filtros df TODAS TODAS turnos_min.
Proof.
  set (df1 := aplicar_filtros df TODAS TODAS turnos_min).
  assert (Hrows : rows (aplicar_filtros df1 TODAS TODAS turnos_min) = rows df1).
  { rewrite aplicar_filtros_filter. apply filter_todos.
    intros r Hr. apply pasa_filtros_spec.
    split; [left; reflexivity | split; [left; reflexivity|]].
    subst df1. pose proof Hr as Hr0.
    apply In_aplicar_filtros in Hr0.
    destruct Hr0 as (_ & _ & _ & r' & Hin' & Hk & Hle).
    exists r'. repeat split; auto.
    apply In_aplicar_filtros.
    split; [exact Hin' | split; [left; reflexivity | split; [left; reflexivity|]]].
    exists r'. repeat split; auto. }
  destruct (aplicar_filtros df1 TODAS TODAS turnos_min) as [c1 r1] eqn:E1.
  destruct df1 as [c0 r0] eqn:E0.
  cbn [rows] in Hrows. subst r1. f_equal.
  unfold aplicar_filtros in E1. cbn [columns] in E1. congruence.
Qed.

(** X14.  A minimum above every [turn_position] of the frame empties
    the result, whatever the category and subcategory selections. *)
Theorem aplicar_filtros_vacio_sobre_el_maximo
    (df : DataFrame EnrichedRow) (categoria_sel subcategoria_sel : str)
    (turnos_min : Z) :
  (forall r, In r (rows df) -> (e_turn r < turnos_min)%Z) ->
  rows (aplicar_filtros df categoria_sel subcategoria_sel turnos_min) = [].
Proof.
  intros H.
  destruct (rows (aplicar_filtros df categoria_sel subcategoria_sel turnos_min))
    as [|r l] eqn:E; [reflexivity|]. exfalso.
  assert (Hr : In r (rows (aplicar_filtros df categoria_sel subcategoria_sel turnos_min)))
    by (rewrite E; left; reflexivity).
  apply In_aplicar_filtros in Hr.
  destruct Hr as (_ & _ & _ & r' & Hin & _ & Hle).
  specialize (H r' Hin). lia.
Qed.

(* ================================================================== *)
(** * Further properties of groupby and of the metrics *)
(* ================================================================== *)

Section GroupByFurther.
Variables (R A : Type).
Variable key : R -> str.
Variable init : R -> A.
Variable step : A -> R -> A.

Lemma insertar_por_clave_perm (g : str * A) (l : list (str * A)) :
  Permutation (insertar_por_clave g l) (g :: l).
Proof.
  induction l as [|h t IH]; simpl; [apply Permutation_refl|].
  destruct (str_ltb (fst h) (fst g)).
  - eapply Permutation_trans; [apply perm_skip, IH | apply perm_swap].
  - apply Permutation_refl.
Qed.

Lemma ordenar_por_clave_perm (l : list (str * A)) :
  Permutation (ordenar_por_clave l) l.
Proof.
  unfold ordenar_por_clave. induction l as [|g l IH]; simpl; [constructor|].
  eapply Permutation_trans; [apply insertar_por_clave_perm | apply perm_skip, IH].
Qed.

Lemma groupby_perm (rs : list R) :
  Permutation (groupby key init step rs)
              (fold_left (fun g r => acumular key init step r g) rs []).
Proof. apply ordenar_por_clave_perm. Qed.

Lemma groupby_NoDup (rs : list R) : NoDup (map fst (groupby key init step rs)).
Proof.
  destruct (acumulados key init step rs) as [Hnd _]. cbv zeta in Hnd.
  eapply Permutation_NoDup; [|exact Hnd].
  apply Permutation_map, Permutation_sym, groupby_perm.
Qed.

(** A group exists for exactly the keys that occur. *)
Lemma groupby_claves (rs : list R) (k : str) :
  In k (map fst (groupby key init step rs)) <-> exists r, In r rs /\ key r = k.
Proof.
  rewrite in_map_iff. split.
  - intros ([k' a] & E & Hin). simpl in E. subst k'.
    apply In_groupby in Hin. unfold agregado in Hin.
    destruct (filter (fun r => str_eqb (key r) k) rs) as [|r0 rest] eqn:Ef;
      [discriminate|].
    assert (Hr : In r0 (filter (fun r => str_eqb (key r) k) rs))
      by (rewrite Ef; left; reflexivity).
    apply filter_In in Hr. destruct Hr as [Hr Hk]. apply str_eqb_eq in Hk.
    exists r0. auto.
  - intros (r & Hin & Hk).
    assert (Hr : In r (filter (fun r => str_eqb (key r) k) rs))
      by (apply filter_In; split; [exact Hin | apply str_eqb_eq; exact Hk]).
    destruct (agregado key init step k rs) as [a|] eqn:E.
    + exists (k, a). split; [reflexivity | apply In_groupby; exact E].
    + unfold agregado in E.
      destruct (filter (fun r => str_eqb (key r) k) rs); [destruct Hr | discriminate].
Qed.

Lemma acumular_length (r : R) (g : list (str * A)) :
  (List.length (acumular key init step r g) <= S (List.length g))%nat.
Proof.
  induction g as [|[k a] t IH]; simpl; [lia|].
  destruct (str_eqb (key r) k); simpl; lia.
Qed.

Lemma groupby_length (rs : list R) :
  (List.length (groupby key init step rs) <= List.length rs)%nat.
Proof.
  rewrite (Permutation_length (groupby_perm rs)).
  induction rs as [|r rs IH] using rev_ind; simpl; [lia|].
  rewrite fold_left_app, length_app. simpl.
  pose proof (acumular_length r
    (fold_left (fun g r => acumular key init step r g) rs [])). lia.
Qed.

(** An additive measure of the aggregates sums to the measure of the rows. *)
Lemma groupby_suma (peso : A -> Z) (w : R -> Z) (rs : list R) :
  (forall r, peso (init r) = w r) ->
  (forall a r, peso (step a r) = (peso a + w r)%Z) ->
  suma (map (fun g => peso (snd g)) (groupby key init step rs)) = suma (map w rs).
Proof.
  intros Hinit Hstep.
  assert (Hsuma : forall l m, fold_left Z.add l m = (m + fold_left Z.add l 0)%Z).
  { induction l as [|x l IH]; intros m; simpl; [lia|].
    rewrite (IH (m + x)%Z), (IH x). lia. }
  assert (Hperm : forall l l' : list Z, Permutation l l' -> suma l = suma l').
  { unfold suma. induction 1; simpl; try lia.
    - rewrite (Hsuma l x), (Hsuma l' x). lia.
    - rewrite (Hsuma l (y + x)%Z), (Hsuma l (x + y)%Z). lia. }
  rewrite (Hperm _ _ (Permutation_map (fun g => peso (snd g)) (groupby_perm rs))).
  assert (Hacc : forall r g,
            suma (map (fun g => peso (snd g)) (acumular key init step r g))
            = (suma (map (fun g => peso (snd g)) g) + w r)%Z).
  { intros r g. unfold suma. induction g as [|[k a] t IH]; simpl.
    - rewrite Hinit. lia.
    - destruct (str_eqb (key r) k); simpl.
      + rewrite Hstep, (Hsuma _ (peso a + w r)%Z), (Hsuma _ (peso a)). lia.
      + rewrite (Hsuma _ (peso a)), IH, (Hsuma _ (peso a)). lia. }
  induction rs as [|r rs IH] using rev_ind; simpl; [reflexivity|].
  rewrite fold_left_app. simpl. rewrite Hacc, IH, map_app. simpl.
  unfold suma. rewrite fold_left_app. simpl. reflexivity.
Qed.

End GroupByFurther.

(** ** The metrics of a frame with rows *)

Lemma fold_add_desde (l : list Z) (z : Z) :
  fold_left Z.add l z = (z + fold_left Z.add l 0)%Z.
Proof.
  revert z. induction l as [|y l IH]; intros z; simpl; [lia|].
  rewrite (IH (z + y)%Z), (IH y). lia.
Qed.

Lemma suma_cons (x : Z) (l : list Z) : suma (x :: l) = (x + suma l)%Z.
Proof. unfold suma. simpl. apply fold_add_desde. Qed.

Lemma suma_no_nulo (l : list CleanRow) :
  suma (map (fun r => no_nulo (user_utterances (raw r))) l)
  = contar_si (fun r => es_texto (user_utterances (raw r))) l.
Proof.
  unfold contar_si. induction l as [|r l IH]; [reflexivity|].
  cbn [map filter]. rewrite suma_cons, IH.
  destruct (user_utterances (raw r)); cbn [es_texto no_nulo List.length]; lia.
Qed.

Lemma fold_max_y_cuenta (rest : list CleanRow) (m0 c0 : Z) :
  fold_left (fun a r => (Z.max (fst a) (c_turn r),
                         (snd a + no_nulo (user_utterances (raw r)))%Z))
            rest (m0, c0)
  = (fold_left (fun m r => Z.max m (c_turn r)) rest m0,
     (c0 + suma (map (fun r => no_nulo (user_utterances (raw r))) rest))%Z).
Proof.
  revert m0 c0. induction rest as [|r rest IH]; intros m0 c0; simpl.
  - f_equal. unfold suma. simpl. lia.
  - rewrite IH. cbn [fst snd]. f_equal.
    change (no_nulo (user_utterances (raw r))
            :: map (fun r0 => no_nulo (user_utterances (raw r0))) rest)
      with (map (fun r0 => no_nulo (user_utterances (raw r0))) (r :: rest)).
    cbn [map]. rewrite suma_cons. lia.
Qed.

(** The table [conversaciones] of [calcular_metricas_conversacion]. *)
Lemma In_conversaciones (rs : list CleanRow) (k : str) (m c : Z) :
  In (k, (m, c))
     (groupby c_conversation
        (fun r => (c_turn r, no_nulo (user_utterances (raw r))))
        (fun a r => (Z.max (fst a) (c_turn r),
                     (snd a + no_nulo (user_utterances (raw r)))%Z)) rs)
  <-> max_turnos_en c_conversation c_turn rs k m /\
      c = contar_si (fun r => es_texto (user_utterances (raw r)))
                    (filas_de c_conversation k rs).
Proof.
  rewrite In_groupby, <- max_turn_position_spec.
  unfold max_turn_position. rewrite In_groupby. unfold agregado, filas_de.
  destruct (filter (fun r => str_eqb (c_conversation r) k) rs) as [|r0 rest].
  - split; [discriminate | intros [H _]; discriminate].
  - rewrite fold_max_y_cuenta, <- suma_no_nulo. cbn [map]. rewrite suma_cons.
    split.
    + intros E. injection E as <- <-. split; reflexivity.
    + intros [E ->]. injection E as <-. reflexivity.
Qed.

(** X17.  For a frame with rows, the table of conversations has a row
    for a conversation exactly with its largest turn position and the
    number of its utterances that are not missing, and
    [total_conversaciones] is the number of rows of that table. *)
Theorem metricas_tabla_de_conversaciones (df : DataFrame CleanRow) :
  rows df <> [] ->
  exists t,
    dict_get "conversaciones_df" (calcular_metricas_conversacion df) = Some (Tabla t) /\
    dict_get "total_conversaciones" (calcular_metricas_conversacion df)
      = Some (Entero (Z.of_nat (List.length t))) /\
    forall k m c,
      In (k, (m, c)) t <->
      max_turnos_en c_conversation c_turn (rows df) k m /\
      c = contar_si (fun r => es_texto (user_utterances (raw r)))
                    (filas_de c_conversation k (rows df)).
Proof.
  intros Hne. unfold calcular_metricas_conversacion, empty.
  destruct (rows df) as [|r rs] eqn:E; [contradiction|].
  eexists. split; [reflexivity | split; [reflexivity|]].
  intros k m c. apply In_conversaciones.
Qed.

(** X20.  For a frame with rows, [total_interacciones] is the number
    of its rows, there is at most one conversation per row, and the long
    conversations are some of the conversations. *)
Theorem metricas_cotas (df : DataFrame CleanRow) :
  rows df <> [] ->
  exists total largas,
    dict_get "total_conversaciones" (calcular_metricas_conversacion df)
      = Some (Entero total) /\
    dict_get "conversaciones_largas" (calcular_metricas_conversacion df)
      = Some (Entero largas) /\
    dict_get "total_interacciones" (calcular_metricas_conversacion df)
      = Some (Entero (Z.of_nat (List.length (rows df)))) /\
    (0 <= total <= Z.of_nat (List.length (rows df)))%Z /\
    (0 <= largas <= total)%Z.
Proof.
  intros Hne. unfold calcular_metricas_conversacion, empty.
  destruct (rows df) as [|r rs] eqn:E; [contradiction|].
  do 2 eexists. split; [reflexivity | split; [reflexivity | split; [reflexivity|]]].
  set (t := groupby c_conversation _ _ (r :: rs)).
  assert (Hle : (List.length t <= List.length (r :: rs))%nat)
    by apply groupby_length.
  split; [lia|]. split; [lia|].
  apply inj_le. rewrite <- (length_map (fun g : str * (Z * Z) => fst (snd g)) t).
  apply filter_length_le.
Qed.

Lemma particion_por_longitud (l : list Z) :
  (contar_si (fun m => (m <=? 2)%Z) l
   + contar_si (fun m => (3 <=? m)%Z && (m <=? 5)%Z) l
   + contar_si (fun m => (6 <=? m)%Z && (m <=? 10)%Z) l
   + contar_si (fun m => (10 <? m)%Z) l
   = Z.of_nat (List.length l))%Z.
Proof.
  unfold contar_si. induction l as [|m l IH]; [reflexivity|].
  cbn [filter List.length].
  destruct (m <=? 2)%Z eqn:E1, (3 <=? m)%Z eqn:E2, (m <=? 5)%Z eqn:E3,
           (6 <=? m)%Z eqn:E4, (m <=? 10)%Z eqn:E5, (10 <? m)%Z eqn:E6;
    cbn [andb List.length];
    rewrite ?Z.leb_le, ?Z.leb_gt, ?Z.ltb_lt, ?Z.ltb_ge in *; lia.
Qed.

(** X21.  The four slices of the pie of conversation lengths count every
    conversation of the table exactly once, and the slice '11+ turnos' is
    the metric [conversaciones_largas]. *)
Theorem distribucion_longitud_particion (df : DataFrame CleanRow) :
  rows df <> [] ->
  exists t a b c largas,
    dict_get "conversaciones_df" (calcular_metricas_conversacion df) = Some (Tabla t) /\
    dict_get "conversaciones_largas" (calcular_metricas_conversacion df)
      = Some (Entero largas) /\
    distribucion_longitud t = [a; b; c; largas] /\
    (a + b + c + largas = Z.of_nat (List.length t))%Z.
Proof.
  intros Hne. unfold calcular_metricas_conversacion, empty.
  destruct (rows df) as [|r rs] eqn:E; [contradiction|].
  do 5 eexists. split; [reflexivity | split; [reflexivity | split]].
  - unfold distribucion_longitud, contar_si. reflexivity.
  - rewrite <- (length_map (fun g : str * (Z * Z) => fst (snd g))).
    exact (particion_por_longitud _).
Qed.

Lemma fold_orb_existsb {R} (f : R -> bool) (rest : list R) (b : bool) :
  fold_left (fun b r => b || f r) rest b = b || existsb f rest.
Proof.
  revert b. induction rest as [|r rest IH]; intros b; simpl.
  - rewrite orb_false_r. reflexivity.
  - rewrite IH, orb_assoc. reflexivity.
Qed.

Lemma NoDup_claves_filter {A} (p : str * A -> bool) (g : list (str * A)) :
  NoDup (map fst g) -> NoDup (map fst (filter p g)).
Proof.
  induction g as [|x g IH]; simpl; intros H; [constructor|].
  inversion H as [|? ? Hnotin Hnd]; subst.
  destruct (p x); simpl; [|auto].
  constructor; [|auto].
  intros Hin. apply Hnotin. apply in_map_iff in Hin.
  destruct Hin as (y & Ey & Hy). apply filter_In in Hy.
  apply in_map_iff. exists y. tauto.
Qed.

(** The conversations counted by [contar_conversaciones_con]. *)
Lemma contar_conversaciones_con_spec (flag : RawRow -> bool) (rs : list CleanRow) :
  exists names,
    NoDup names /\
    (forall k, In k names <->
       exists r, In r rs /\ c_conversation r = k /\ flag (raw r) = true) /\
    contar_conversaciones_con flag rs = Z.of_nat (List.length names).
Proof.
  unfold contar_conversaciones_con. cbv zeta.
  set (G := groupby c_conversation (fun r => flag (raw r))
                    (fun b r => b || flag (raw r)) rs).
  exists (map fst (filter (fun g => snd g) G)).
  split; [apply NoDup_claves_filter, groupby_NoDup | split].
  - intros k. rewrite in_map_iff. split.
    + intros ([k' b] & Ek & Hin). simpl in Ek. subst k'.
      apply filter_In in Hin. destruct Hin as [Hin Hb]. simpl in Hb. subst b.
      apply In_groupby in Hin. unfold agregado in Hin.
      destruct (filter (fun r => str_eqb (c_conversation r) k) rs)
        as [|r0 rest] eqn:Ef; [discriminate|].
      injection Hin as Hin. rewrite fold_orb_existsb in Hin.
      change (existsb (fun r => flag (raw r)) (r0 :: rest) = true) in Hin.
      apply existsb_exists in Hin. destruct Hin as (r & Hr & Hflag).
      rewrite <- Ef in Hr. apply filter_In in Hr. destruct Hr as [Hr Hk].
      apply str_eqb_eq in Hk. exists r. auto.
    + intros (r & Hr & Hk & Hflag).
      exists (k, true). split; [reflexivity|].
      apply filter_In. split; [|reflexivity].
      apply In_groupby. unfold agregado.
      assert (Hf : In r (filter (fun r => str_eqb (c_conversation r) k) rs))
        by (apply filter_In; split; [exact Hr | apply str_eqb_eq; exact Hk]).
      destruct (filter (fun r => str_eqb (c_conversation r) k) rs)
        as [|r0 rest] eqn:Ef; [destruct Hf|].
      f_equal. rewrite fold_orb_existsb.
      change (existsb (fun r => flag (raw r)) (r0 :: rest) = true).
      apply existsb_exists. exists r. auto.
  - rewrite length_map. reflexivity.
Qed.

(** X22.  When the frame has the column [live_agent_handoff], the
    metric [escalamientos] is the number of distinct conversations with at
    least one flagged row, however many of their rows are flagged; without
    the column it is 0. *)
Theorem metricas_escalamientos (df : DataFrame CleanRow) :
  rows df <> [] ->
  exists names,
    NoDup names /\
    (forall k, In k names <->
       col_live_agent_handoff (columns df) = true /\
       exists r, In r (rows df) /\ c_conversation r = k /\
                 live_agent_handoff (raw r) = true) /\
    dict_get "escalamientos" (calcular_metricas_conversacion df)
      = Some (Entero (Z.of_nat (List.length names))).
Proof.
  intros Hne. unfold calcular_metricas_conversacion, empty.
  destruct (rows df) as [|r rs] eqn:E; [contradiction|].
  cbn [dict_get String.eqb Ascii.eqb Bool.eqb].
  destruct (col_live_agent_handoff (columns df)).
  - destruct (contar_conversaciones_con_spec live_agent_handoff (r :: rs))
      as (names & Hnd & Hin & Hn).
    exists names. split; [exact Hnd | split].
    + intros k. rewrite Hin. tauto.
    + simpl. rewrite Hn. reflexivity.
  - exists []. split; [constructor | split].
    + intros k. split; [intros [] | intros [H _]; discriminate].
    + reflexivity.
Qed.

(* ================================================================== *)
(** * Further properties of the rankings *)
(* ================================================================== *)

Lemma suma_perm (l l' : list Z) : Permutation l l' -> suma l = suma l'.
Proof.
  induction 1 as [|x l l' Hp IH|x y l|l l' l'' H1 IH1 H2 IH2].
  - reflexivity.
  - rewrite !suma_cons, IH. reflexivity.
  - rewrite !suma_cons. lia.
  - congruence.
Qed.

Lemma contar_valores_NoDup (l : list str) : NoDup (map fst (contar_valores l)).
Proof.
  unfold contar_valores.
  destruct (acumulados (fun v : str => v) (fun _ => 1%nat) (fun n _ => S n) l)
    as [Hnd _]. exact Hnd.
Qed.

Lemma contar_valores_suma (l : list str) :
  suma (map (fun g => Z.of_nat (snd g)) (contar_valores l)) = Z.of_nat (List.length l).
Proof.
  unfold contar_valores.
  rewrite <- (suma_perm (Permutation_map (fun g => Z.of_nat (snd g))
                 (groupby_perm (fun v : str => v) (fun _ => 1%nat) (fun n _ => S n) l))).
  rewrite (groupby_suma (fun v : str => v) (fun _ => 1%nat) (fun n _ => S n)
             Z.of_nat (fun _ => 1%Z)); [|reflexivity | intros; lia].
  induction l as [|x l IH]; [reflexivity|].
  cbn [map List.length]. rewrite suma_cons, IH. lia.
Qed.

Lemma StronglySorted_app_inv {A} (R : A -> A -> Prop) (l1 l2 : list A) :
  StronglySorted R (l1 ++ l2) ->
  forall x y, In x l1 -> In y l2 -> R x y.
Proof.
  induction l1 as [|a l1 IH]; simpl; intros Hs x y Hx Hy; [destruct Hx|].
  apply StronglySorted_inv in Hs. destruct Hs as [Hs Ha].
  destruct Hx as [<- | Hx]; [|eauto].
  rewrite Forall_forall in Ha. apply Ha. apply in_or_app. right. exact Hy.
Qed.

Lemma NoDup_firstn {A} (n : nat) (l : list A) : NoDup l -> NoDup (firstn n l).
Proof.
  intros H. rewrite <- (firstn_skipn n l) in H.
  apply NoDup_app_remove_r in H. exact H.
Qed.

Section RankingFurther.
Context {U : Unicode} {P : Pandas} {PS : PandasSort P}.

Lemma value_counts_NoDup (l : list str) : NoDup (map fst (value_counts l)).
Proof.
  unfold value_counts.
  eapply Permutation_NoDup; [|apply (contar_valores_NoDup l)].
  apply Permutation_map, Permutation_sym, sort_values_perm.
Qed.

Lemma In_value_counts (l : list str) (q : str) (c : nat) :
  In (q, c) (value_counts l) <->
  c = List.length (filter (fun v => str_eqb v q) l) /\ (0 < c)%nat.
Proof.
  unfold value_counts. rewrite <- contar_valores_spec. split.
  - apply Permutation_in, sort_values_perm.
  - apply Permutation_in, Permutation_sym, sort_values_perm.
Qed.

(** X23.  With the greeting filter on, every question of the ranking is
    the normalised utterance of a row that is not a basic greeting and
    whose category is not "Interacciones Generales", and no question
    occurs twice in the ranking. *)
Theorem obtener_top_preguntas_sin_saludos
    (df : DataFrame EnrichedRow) (n : nat) :
  NoDup (map fst (obtener_top_preguntas df n true)) /\
  forall q c, In (q, c) (obtener_top_preguntas df n true) ->
    es_saludo_basico (Text q) = false /\
    exists r, In r (rows df) /\ pregunta_limpia (clean r) = q /\
              categoria r <> INTERACCIONES_GENERALES.
Proof.
  unfold obtener_top_preguntas. cbv zeta. split.
  - rewrite <- firstn_map. apply NoDup_firstn, value_counts_NoDup.
  - intros q c Hin. apply In_firstn, In_value_counts in Hin.
    destruct Hin as [-> Hpos].
    destruct (filter (fun v => str_eqb v q)
                (map (fun r => pregunta_limpia (clean r)) (filas_faqs df true)))
      as [|v rest] eqn:E; [simpl in Hpos; lia|].
    assert (Hv : In v (filter (fun v => str_eqb v q)
                (map (fun r => pregunta_limpia (clean r)) (filas_faqs df true))))
      by (rewrite E; left; reflexivity).
    apply filter_In in Hv. destruct Hv as [Hv Hq]. apply str_eqb_eq in Hq. subst v.
    apply in_map_iff in Hv. destruct Hv as (r & Hr & Hin).
    unfold filas_faqs in Hin. cbv zeta in Hin.
    apply filter_In in Hin. destruct Hin as [Hin Hcat].
    apply filter_In in Hin. destruct Hin as [Hin Hsal].
    apply negb_true_iff in Hcat, Hsal. apply str_eqb_neq in Hcat.
    rewrite Hr in Hsal. split; [exact Hsal|]. exists r. auto.
Qed.

(** X24.  The ranking holds the most frequent questions: a counted
    question that is left out occurs at most as often as every question
    that is in. *)
Theorem obtener_top_preguntas_maximal
    (df : DataFrame EnrichedRow) (n : nat) (filtrar_saludos : bool)
    (q q' : str) (c : nat) :
  In (q, c) (obtener_top_preguntas df n filtrar_saludos) ->
  (exists r, In r (filas_faqs df filtrar_saludos) /\ pregunta_limpia (clean r) = q') ->
  ~ In q' (map fst (obtener_top_preguntas df n filtrar_saludos)) ->
  (List.length (filter (fun r => str_eqb (pregunta_limpia (clean r)) q')
                       (filas_faqs df filtrar_saludos)) <= c)%nat.
Proof.
  unfold obtener_top_preguntas. cbv zeta.
  set (valores := map (fun r => pregunta_limpia (clean r))
                      (filas_faqs df filtrar_saludos)).
  intros Hin (r & Hr & Hq') Hout.
  set (c' := List.length (filter (fun v => str_eqb v q') valores)).
  assert (Hc' : In (q', c') (value_counts valores)).
  { apply In_value_counts. split; [reflexivity|].
    assert (Hv : In q' (filter (fun v => str_eqb v q') valores)).
    { apply filter_In. split; [|apply str_eqb_refl].
      subst valores. apply in_map_iff. exists r. auto. }
    subst c'. destruct (filter (fun v => str_eqb v q') valores);
      [destruct Hv | simpl; lia]. }
  assert (Hlen : c' = List.length
            (filter (fun r => str_eqb (pregunta_limpia (clean r)) q')
                    (filas_faqs df filtrar_saludos))).
  { subst c' valores. clear.
    induction (filas_faqs df filtrar_saludos) as [|x l IH]; simpl; [reflexivity|].
    destruct (str_eqb (pregunta_limpia (clean x)) q'); simpl; rewrite IH; reflexivity. }
  rewrite <- Hlen.
  rewrite <- (firstn_skipn n (value_counts valores)) in Hc'.
  apply in_app_or in Hc'. destruct Hc' as [Hc' | Hc'].
  - exfalso. apply Hout. apply in_map_iff. exists (q', c'). auto.
  - pose proof (sort_values_sorted (contar_valores valores)) as Hs.
    fold (value_counts valores) in Hs.
    rewrite <- (firstn_skipn n (value_counts valores)) in Hs.
    exact (@StronglySorted_app_inv _ _ _ _ Hs (q, c) (q', c') Hin Hc').
Qed.

(** X25.  The bars of the categories: every category of the frame has
    one bar, the bars come in non-increasing order of their counts, and
    the counts add up to the number of rows. *)
Theorem categoria_counts_completo (df : DataFrame EnrichedRow) :
  NoDup (map fst (categoria_counts df)) /\
  (forall k, In k (map fst (categoria_counts df)) <->
             exists r, In r (rows df) /\ categoria r = k) /\
  StronglySorted (fun a b => (snd b <= snd a)%nat) (categoria_counts df) /\
  suma (map (fun g => Z.of_nat (snd g)) (categoria_counts df))
    = Z.of_nat (List.length (rows df)).
Proof.
  unfold categoria_counts. split; [apply value_counts_NoDup | split; [|split]].
  - intros k. rewrite in_map_iff. split.
    + intros ([k' c] & Ek & Hin). simpl in Ek. subst k'.
      apply In_value_counts in Hin. destruct Hin as [-> Hpos].
      destruct (filter (fun v => str_eqb v k) (map categoria (rows df)))
        as [|v rest] eqn:E; [simpl in Hpos; lia|].
      assert (Hv : In v (filter (fun v => str_eqb v k) (map categoria (rows df))))
        by (rewrite E; left; reflexivity).
      apply filter_In in Hv. destruct Hv as [Hv Hk]. apply str_eqb_eq in Hk. subst v.
      apply in_map_iff in Hv. destruct Hv as (r & Hr & Hin). exists r. auto.
    + intros (r & Hr & Hk).
      exists (k, List.length (filter (fun v => str_eqb v k) (map categoria (rows df)))).
      split; [reflexivity|]. apply In_value_counts. split; [reflexivity|].
      assert (Hv : In k (filter (fun v => str_eqb v k) (map categoria (rows df)))).
      { apply filter_In. split; [|apply str_eqb_refl].
        apply in_map_iff. exists r. auto. }
      destruct (filter (fun v => str_eqb v k) (map categoria (rows df)));
        [destruct Hv | simpl; lia].
  - apply sort_values_sorted.
  - unfold value_counts.
    rewrite (suma_perm (Permutation_map (fun g => Z.of_nat (snd g))
               (sort_values_perm (contar_valores (map categoria (rows df)))))).
    rewrite contar_valores_suma, length_map. reflexivity.
Qed.

End RankingFurther.

(* ================================================================== *)
(** * The further properties on the sample data *)
(* ================================================================== *)

Section EjemplosAdicionales.
Local Existing Instance Latin1.tables.

Local Existing Instance pandas_por_insercion.

Lemma sin_intent_par_de_la_taxonomia_witness :
  intent_valido ejemplo_alx1 = None /\
  exists kws,
    In (fst (fst (clasificar_consulta ejemplo_alx1)),
        snd (fst (clasificar_consulta ejemplo_alx1)), kws) entradas.
Proof.
  assert (H : intent_valido ejemplo_alx1 = None) by reflexivity.
  split; [exact H | exact (sin_intent_par_de_la_taxonomia ejemplo_alx1 H)].
Defined.

Lemma confianza_monotona_witness :
  intent_valido ejemplo_rastrear = None /\
  intent_valido ejemplo_rastrear_pedido = None /\
  contains (pregunta_de ejemplo_rastrear) (pregunta_de ejemplo_rastrear_pedido) = true /\
  confianza (clasificar_consulta ejemplo_rastrear) = 1 # 9 /\
  confianza (clasificar_consulta ejemplo_rastrear_pedido) = 2 # 9 /\
  (confianza (clasificar_consulta ejemplo_rastrear)
   <= confianza (clasificar_consulta ejemplo_rastrear_pedido))%Q.
Proof.
  assert (H1 : intent_valido ejemplo_rastrear = None) by reflexivity.
  assert (H2 : intent_valido ejemplo_rastrear_pedido = None) by reflexivity.
  assert (H3 : contains (pregunta_de ejemplo_rastrear)
                        (pregunta_de ejemplo_rastrear_pedido) = true)
    by reflexivity.
  split; [exact H1 | split; [exact H2 | split; [exact H3 |]]].
  split; [reflexivity | split; [reflexivity |]].
  exact (confianza_monotona ejemplo_rastrear ejemplo_rastrear_pedido H1 H2 H3).
Defined.

Lemma limpiar_texto_forma_normal_witness :
  is_space SPACE = true /\ forma_normal (limpiar_texto ejemplo_texto).
Proof.
  assert (H : is_space SPACE = true) by reflexivity.
  split; [exact H | exact (limpiar_texto_forma_normal ejemplo_texto H)].
Defined.

Lemma limpiar_texto_puntos_fijos_witness :
  limpiar_texto (Text (lit "hola mundo")) = lit "hola mundo" /\
  limpiar_texto (Text (lit "Hola mundo")) <> lit "Hola mundo" /\
  (limpiar_texto (Text (lit "hola mundo")) = lit "hola mundo" <->
   forma_normal (lit "hola mundo") /\ str_lower (lit "hola mundo") = lit "hola mundo").
Proof.
  split; [reflexivity | split; [vm_compute; discriminate |]].
  exact (limpiar_texto_puntos_fijos (L := Latin1_lower_stable) (lit "hola mundo")).
Defined.


Lemma cargar_y_procesar_datos_filas_con_texto_witness :
  cargar_y_procesar_datos ejemplo_conversacion_larga
    = Returns (ejemplo_df_original_c, ejemplo_df_c) /\
  rows ejemplo_df_c <> [] /\
  List.length (rows ejemplo_df_original_c)
    = List.length (rows ejemplo_conversacion_larga) /\
  forall e, In e (rows ejemplo_df_c) ->
    In (raw (clean e)) (rows ejemplo_conversacion_larga) /\
    exists s, user_utterances (raw (clean e)) = Text s.
Proof.
  assert (H : cargar_y_procesar_datos ejemplo_conversacion_larga
              = Returns (ejemplo_df_original_c, ejemplo_df_c))
    by (vm_compute; reflexivity).
  split; [exact H |].
  exact (@cargar_y_procesar_datos_filas_con_texto Latin1.tables
           ejemplo_conversacion_larga ejemplo_df_original_c ejemplo_df_c H).
Defined.

Lemma aplicar_filtros_conversaciones_enteras_witness :
  In (fila_c 2) (rows (aplicar_filtros ejemplo_df_c TODAS TODAS 3)) /\
  In (fila_c 0) (rows ejemplo_df_c) /\
  e_conversation (fila_c 0) = e_conversation (fila_c 2) /\
  e_turn (fila_c 0) = 1%Z /\
  In (fila_c 0) (rows (aplicar_filtros ejemplo_df_c TODAS TODAS 3)).
Proof.
  assert (H1 : In (fila_c 2) (rows (aplicar_filtros ejemplo_df_c TODAS TODAS 3)))
    by (vm_compute; tauto).
  assert (H2 : In (fila_c 0) (rows ejemplo_df_c)) by (vm_compute; tauto).
  assert (H3 : e_conversation (fila_c 0) = e_conversation (fila_c 2)) by reflexivity.
  split; [exact H1 | split; [exact H2 | split; [exact H3 | split; [reflexivity |]]]].
  exact (@aplicar_filtros_conversaciones_enteras ejemplo_df_c 3
           (fila_c 2) (fila_c 0) H1 H2 H3).
Defined.

Lemma aplicar_filtros_monotono_witness :
  (1 <= 3)%Z /\
  In (fila_c 1) (rows (aplicar_filtros ejemplo_df_c TODAS TODAS 3)) /\
  In (fila_c 1) (rows (aplicar_filtros ejemplo_df_c TODAS TODAS 1)).
Proof.
  assert (H1 : (1 <= 3)%Z) by lia.
  assert (H2 : In (fila_c 1) (rows (aplicar_filtros ejemplo_df_c TODAS TODAS 3)))
    by (vm_compute; tauto).
  split; [exact H1 | split; [exact H2 |]].
  exact (@aplicar_filtros_monotono ejemplo_df_c TODAS TODAS 1 3 (fila_c 1) H1 H2).
Defined.

Lemma aplicar_filtros_vacio_sobre_el_maximo_witness :
  (forall r, In r (rows ejemplo_df_c) -> (e_turn r < 4)%Z) /\
  rows (aplicar_filtros ejemplo_df_c TODAS TODAS 4) = [].
Proof.
  assert (H : forall r, In r (rows ejemplo_df_c) -> (e_turn r < 4)%Z).
  { intros r Hr. vm_compute in Hr.
    destruct Hr as [<- | [<- | [<- | [<- | []]]]]; reflexivity. }
  split; [exact H |].
  exact (@aplicar_filtros_vacio_sobre_el_maximo ejemplo_df_c TODAS TODAS 4 H).
Defined.

Lemma metricas_tabla_de_conversaciones_witness :
  rows ejemplo_df_original_c <> [] /\
  exists t,
    dict_get "conversaciones_df" (calcular_metricas_conversacion ejemplo_df_original_c)
      = Some (Tabla t) /\
    dict_get "total_conversaciones" (calcular_metricas_conversacion ejemplo_df_original_c)
      = Some (Entero (Z.of_nat (List.length t))) /\
    forall k m c,
      In (k, (m, c)) t <->
      max_turnos_en c_conversation c_turn (rows ejemplo_df_original_c) k m /\
      c = contar_si (fun r => es_texto (user_utterances (raw r)))
                    (filas_de c_conversation k (rows ejemplo_df_original_c)).
Proof.
  assert (H : rows ejemplo_df_original_c <> []) by (vm_compute; discriminate).
  split; [exact H | exact (@metricas_tabla_de_conversaciones ejemplo_df_original_c H)].
Defined.

Lemma metricas_cotas_witness :
  rows ejemplo_df_original_c <> [] /\
  exists total largas,
    dict_get "total_conversaciones" (calcular_metricas_conversacion ejemplo_df_original_c)
      = Some (Entero total) /\
    dict_get "conversaciones_largas" (calcular_metricas_conversacion ejemplo_df_original_c)
      = Some (Entero largas) /\
    dict_get "total_interacciones" (calcular_metricas_conversacion ejemplo_df_original_c)
      = Some (Entero (Z.of_nat (List.length (rows ejemplo_df_original_c)))) /\
    (0 <= total <= Z.of_nat (List.length (rows ejemplo_df_original_c)))%Z /\
    (0 <= largas <= total)%Z.
Proof.
  assert (H : rows ejemplo_df_original_c <> []) by (vm_compute; discriminate).
  split; [exact H | exact (@metricas_cotas ejemplo_df_original_c H)].
Defined.

Lemma distribucion_longitud_particion_witness :
  rows ejemplo_df_original_c <> [] /\
  exists t a b c largas,
    dict_get "conversaciones_df" (calcular_metricas_conversacion ejemplo_df_original_c)
      = Some (Tabla t) /\
    dict_get "conversaciones_largas" (calcular_metricas_conversacion ejemplo_df_original_c)
      = Some (Entero largas) /\
    distribucion_longitud t = [a; b; c; largas] /\
    (a + b + c + largas = Z.of_nat (List.length t))%Z.
Proof.
  assert (H : rows ejemplo_df_original_c <> []) by (vm_compute; discriminate).
  split; [exact H | exact (@distribucion_longitud_particion ejemplo_df_original_c H)].
Defined.

Lemma metricas_escalamientos_witness :
  rows ejemplo_df_original_c <> [] /\
  dict_get "escalamientos" (calcular_metricas_conversacion ejemplo_df_original_c)
    = Some (Entero 1) /\
  exists names,
    NoDup names /\
    (forall k, In k names <->
       col_live_agent_handoff (columns ejemplo_df_original_c) = true /\
       exists r, In r (rows ejemplo_df_original_c) /\ c_conversation r = k /\
                 live_agent_handoff (raw r) = true) /\
    dict_get "escalamientos" (calcular_metricas_conversacion ejemplo_df_original_c)
      = Some (Entero (Z.of_nat (List.length names))).
Proof.
  assert (H : rows ejemplo_df_original_c <> []) by (vm_compute; discriminate).
  split; [exact H | split; [vm_compute; reflexivity |]].
  exact (@metricas_escalamientos ejemplo_df_original_c H).
Defined.

Lemma obtener_top_preguntas_frecuencias_witness :
  PandasSort pandas_por_insercion /\
  let top := obtener_top_preguntas ejemplo_df_c 15 true in
  (List.length top <= 15)%nat /\
  (forall q c, In (q, c) top ->
     c = List.length (filter (fun r => str_eqb (pregunta_limpia (clean r)) q)
                             (filas_faqs ejemplo_df_c true))
     /\ (0 < c)%nat) /\
  StronglySorted (fun a b => (snd b <= snd a)%nat) top.
Proof.
  assert (H : PandasSort pandas_por_insercion) by apply ordenar_desc_PandasSort.
  split; [exact H |].
  exact (@obtener_top_preguntas_frecuencias Latin1.tables pandas_por_insercion H
           ejemplo_df_c 15 true).
Defined.

Lemma obtener_top_preguntas_sin_saludos_witness :
  PandasSort pandas_por_insercion /\
  map fst (obtener_top_preguntas ejemplo_df_c 15 true)
    = [lit "quiero rastrear mi pedido"; lit "necesito un agente";
       lit "cuanto cuesta el filtro"] /\
  NoDup (map fst (obtener_top_preguntas ejemplo_df_c 15 true)) /\
  forall q c, In (q, c) (obtener_top_preguntas ejemplo_df_c 15 true) ->
    es_saludo_basico (Text q) = false /\
    exists r, In r (rows ejemplo_df_c) /\ pregunta_limpia (clean r) = q /\
              categoria r <> INTERACCIONES_GENERALES.
Proof.
  assert (H : PandasSort pandas_por_insercion) by apply ordenar_desc_PandasSort.
  split; [exact H | split; [vm_compute; reflexivity |]].
  exact (@obtener_top_preguntas_sin_saludos Latin1.tables pandas_por_insercion H
           ejemplo_df_c 15).
Defined.

Lemma obtener_top_preguntas_maximal_witness :
  PandasSort pandas_por_insercion /\
  In (lit "quiero rastrear mi pedido", 1%nat) (obtener_top_preguntas ejemplo_df_c 1 true) /\
  (exists r, In r (filas_faqs ejemplo_df_c true) /\
             pregunta_limpia (clean r) = lit "cuanto cuesta el filtro") /\
  ~ In (lit "cuanto cuesta el filtro")
       (map fst (obtener_top_preguntas ejemplo_df_c 1 true)) /\
  (List.length (filter (fun r => str_eqb (pregunta_limpia (clean r))
                                         (lit "cuanto cuesta el filtro"))
                       (filas_faqs ejemplo_df_c true)) <= 1)%nat.
Proof.
  assert (H : PandasSort pandas_por_insercion) by apply ordenar_desc_PandasSort.
  assert (H1 : In (lit "quiero rastrear mi pedido", 1%nat)
                  (obtener_top_preguntas ejemplo_df_c 1 true))
    by (vm_compute; tauto).
  assert (H2 : exists r, In r (filas_faqs ejemplo_df_c true) /\
                 pregunta_limpia (clean r) = lit "cuanto cuesta el filtro").
  { exists (fila_c 3). split; [vm_compute; tauto | reflexivity]. }
  assert (H3 : ~ In (lit "cuanto cuesta el filtro")
                    (map fst (obtener_top_preguntas ejemplo_df_c 1 true))).
  { intros Hin. vm_compute in Hin. destruct Hin as [Hin | []]. discriminate. }
  split; [exact H | split; [exact H1 | split; [exact H2 | split; [exact H3 |]]]].
  exact (@obtener_top_preguntas_maximal Latin1.tables pandas_por_insercion H
           ejemplo_df_c 1 true (lit "quiero rastrear mi pedido")
           (lit "cuanto cuesta el filtro") 1%nat H1 H2 H3).
Defined.

Lemma categoria_counts_completo_witness :
  PandasSort pandas_por_insercion /\
  NoDup (map fst (categoria_counts ejemplo_df_c)) /\
  (forall k, In k (map fst (categoria_counts ejemplo_df_c)) <->
             exists r, In r (rows ejemplo_df_c) /\ categoria r = k) /\
  StronglySorted (fun a b => (snd b <= snd a)%nat) (categoria_counts ejemplo_df_c) /\
  suma (map (fun g => Z.of_nat (snd g)) (categoria_counts ejemplo_df_c))
    = Z.of_nat (List.length (rows ejemplo_df_c)).
Proof.
  assert (H : PandasSort pandas_por_insercion) by apply ordenar_desc_PandasSort.
  split; [exact H |].
  exact (@categoria_counts_completo pandas_por_insercion H ejemplo_df_c).
Defined.

End EjemplosAdicionales.
